(** * url-shortener: the TTL cache and the path resolver

    A shallow embedding of [main.go] and [sheetprovider.go].  Go pointers to
    [url.URL] values are locations in an explicit heap, because the cache
    hands out the very pointers it stores and [prepRedirect] writes through
    them.  The clock, the outcome of every external call made by the sheet
    provider, runtime panics and [log.Fatalf] are explicit in the monad the
    stateful functions run in.  The [sync.RWMutex] of the cache is not
    modelled: every function is run sequentially, start to end. *)

From Stdlib Require Import ZArith Ascii String List Lia.
From stdpp Require Import base option list gmap strings sorting.

Local Open Scope string_scope.
Local Open Scope Z_scope.

(** ** Package [strings] *)

Module Strings.

(** [strings.TrimPrefix]. *)
Definition TrimPrefix (s pre : string) : string :=
  if String.prefix pre s
  then String.substring (String.length pre) (String.length s - String.length pre) s
  else s.

(** [strings.Split] for a separator of one byte, the only use in the
    sources.  The result is never empty: splitting the empty string gives
    one empty segment. *)
Fixpoint Split (s : string) (sep : ascii) : list string :=
  match s with
  | EmptyString => [EmptyString]
  | String c s' =>
      if Ascii.eqb c sep then EmptyString :: Split s' sep
      else match Split s' sep with
           | [] => [String c EmptyString]
           | h :: t => String c h :: t
           end
  end.

(** [strings.Join]. *)
Fixpoint Join (elems : list string) (sep : string) : string :=
  match elems with
  | [] => ""
  | [e] => e
  | e :: es => e ++ sep ++ Join es sep
  end.

(** [strings.HasSuffix]. *)
Definition HasSuffix (s suf : string) : bool :=
  let n := String.length s in
  let k := String.length suf in
  (k <=? n)%nat && String.eqb (String.substring (n - k) k s) suf.

End Strings.

(** ** Package [net/url] *)

(** The fields of [url.URL] the program reads or writes. *)
Record URL := mkURL {
  Scheme : string;
  Host : string;
  Path : string;
  RawQuery : string;
  Fragment : string
}.

Definition set_Path (p : string) (u : URL) : URL :=
  mkURL (Scheme u) (Host u) p (RawQuery u) (Fragment u).

Definition set_RawQuery (q : string) (u : URL) : URL :=
  mkURL (Scheme u) (Host u) (Path u) q (Fragment u).

(** [url.Values] is [map[string][]string]. *)
Abbreviation Values := (gmap string (list string)).

(** [Values.Get]: the first value of the key, or the empty string. *)
Definition Values_Get (vs : Values) (key : string) : string :=
  match vs !! key with
  | Some (x :: _) => x
  | _ => ""
  end.

(** [Values.Add]: appends to the values of the key. *)
Definition Values_Add (vs : Values) (key value : string) : Values :=
  <[key := (default [] (vs !! key) ++ [value])%list]> vs.

(** A Go [error] value, by its message. *)
Definition error := string.

(** A Go result pair [(T, error)] of which exactly one side is set. *)
Inductive result (A : Type) : Type :=
| Ok (a : A)
| Err (e : error).
Arguments Ok {A} a.
Arguments Err {A} e.

(** The standard-library functions whose bodies are outside the repository:
    the program is verified against any implementation of them. *)
Class GoLib := {
  (** [strings.ToLower] *)
  strings_ToLower : string -> string;
  (** [url.Parse] *)
  url_Parse : string -> result URL;
  (** [url.ParseQuery] with its error dropped, as [URL.Query] calls it *)
  url_ParseQuery : string -> Values;
  (** [Values.Encode] *)
  Values_Encode : Values -> string
}.

(** The method [Query] of [URL]. *)
Definition URL_Query `{GoLib} (u : URL) : Values := url_ParseQuery (RawQuery u).

(** ** Values of the provider and of the cache *)

(** A cell of a sheet row is an [interface{}]: the program only asks
    whether it holds a string. *)
Inductive Cell :=
| CString (s : string)
| CBool (b : bool)
| CFloat64 (bits : Z)
| CNil.

Abbreviation Row := (list Cell).

(** Pointers to [url.URL] are indices ([nat]) into the heap of the state. *)

(** [type URLMap map[string]*url.URL] *)
Abbreviation URLMap := (gmap string nat).

Record sheetsProvider := mkProvider {
  googleSheetsID : string;
  sheetName : string
}.

(** [time.Time] and [time.Duration] are counts of nanoseconds; the zero
    [time.Time] is [0]. *)
Record cachedURLMap := mkCache {
  c_v : URLMap;
  c_lastUpdate : Z;
  c_ttl : Z;
  c_sheet : sheetsProvider
}.

(** What the outside world answers during one call of
    [sheetsProvider.Query], one field per call that can fail ([None]: it
    succeeded). *)
Record Attempt := mkAttempt {
  at_readCredentials : option error;   (* ioutil.ReadFile("credentials.json") *)
  at_configFromJSON : option error;    (* google.ConfigFromJSON *)
  at_tokenFromFile : option error;     (* tokenFromFile("token.json") *)
  at_scanAuthCode : option error;      (* fmt.Scan(&authCode) *)
  at_exchange : option error;          (* config.Exchange *)
  at_openTokenFile : option error;     (* os.OpenFile in saveToken *)
  at_newService : option error;        (* sheets.NewService *)
  at_valuesGet : result (list Row)     (* srv.Spreadsheets.Values.Get(..).Do() *)
}.

(** The environment: [clock n] is what the [n]-th call of [time.Now]
    returns, [attempts n] what the world answers during the [n]-th call of
    [Query]; [reads] and [queries] count the calls made so far. *)
Record World := mkWorld {
  clock : nat -> Z;
  reads : nat;
  attempts : nat -> Attempt;
  queries : nat
}.

Record State := mkState {
  cache : cachedURLMap;
  heap : list URL;
  world : World
}.

(** ** The monad of the stateful functions *)

(** A call returns, panics (a Go runtime panic unwinds the goroutine), or
    ends the process ([log.Fatalf] calls [os.Exit(1)]). *)
Inductive Outcome (A : Type) : Type :=
| Done (a : A)
| Panicked (msg : string)
| Exited (msg : string).
Arguments Done {A} a.
Arguments Panicked {A} msg.
Arguments Exited {A} msg.

Definition M (A : Type) : Type := State -> Outcome A * State.

Definition ret {A} (a : A) : M A := fun s => (Done a, s).

Definition bind {A B} (m : M A) (k : A -> M B) : M B :=
  fun s =>
    match m s with
    | (Done a, s') => k a s'
    | (Panicked msg, s') => (Panicked msg, s')
    | (Exited msg, s') => (Exited msg, s')
    end.

Declare Scope go_scope.
Delimit Scope go_scope with go.
Notation "x <- c ;; k" := (bind c (fun x => k))
  (at level 100, c at next level, right associativity) : go_scope.
Notation "c ;;; k" := (bind c (fun _ => k))
  (at level 100, right associativity) : go_scope.
Local Open Scope go_scope.

Definition panic {A} (msg : string) : M A := fun s => (Panicked msg, s).
Definition log_Fatalf {A} (msg : string) : M A := fun s => (Exited msg, s).

Definition get_cache : M cachedURLMap := fun s => (Done (cache s), s).
Definition put_cache (c : cachedURLMap) : M unit :=
  fun s => (Done tt, mkState c (heap s) (world s)).

(** [new(url.URL)] filled with [u]. *)
Definition alloc (u : URL) : M nat :=
  fun s => (Done (length (heap s)), mkState (cache s) (heap s ++ [u])%list (world s)).

(** Reading and writing through a [*url.URL]. *)
Definition load (l : nat) : M URL :=
  fun s =>
    match heap s !! l with
    | Some u => (Done u, s)
    | None => (Panicked "invalid memory address or nil pointer dereference", s)
    end.

Definition store (l : nat) (u : URL) : M unit :=
  fun s =>
    match heap s !! l with
    | Some _ => (Done tt, mkState (cache s) (<[l := u]> (heap s)) (world s))
    | None => (Panicked "invalid memory address or nil pointer dereference", s)
    end.

(** The state once the clock has been read one more time. *)
Definition tick (s : State) : State :=
  let w := world s in
  mkState (cache s) (heap s) (mkWorld (clock w) (S (reads w)) (attempts w) (queries w)).

(** The state once one more query has been started. *)
Definition asked (s : State) : State :=
  let w := world s in
  mkState (cache s) (heap s) (mkWorld (clock w) (reads w) (attempts w) (S (queries w))).

(** [time.Now]. *)
Definition time_Now : M Z :=
  fun s => (Done (clock (world s) (reads (world s))), tick s).

Definition maxDuration : Z := 2 ^ 63 - 1.
Definition minDuration : Z := - 2 ^ 63.

(** [Time.Sub]: the difference as a [Duration], which saturates. *)
Definition Time_Sub (t u : Z) : Z :=
  Z.max minDuration (Z.min maxDuration (t - u)).

(** [time.Since]. *)
Definition time_Since (t : Z) : M Z :=
  now <- time_Now ;; ret (Time_Sub now t).

(** The world's answers for the call of [Query] that starts now. *)
Definition next_attempt : M Attempt :=
  fun s => (Done (attempts (world s) (queries (world s))), asked s).

(** ** The program *)

Section Program.

Context `{GoLib}.

(** *** [sheetprovider.go] and the token flow of [main.go]

    The log lines written with [log.Printf] and [fmt.Printf] are left
    out; [log.Fatalf] is kept, since it ends the process. *)

(** [getTokenFromWeb]. *)
Definition getTokenFromWeb (a : Attempt) : M unit :=
  match at_scanAuthCode a with
  | Some err => log_Fatalf ("Unable to read authorization code: " ++ err)
  | None =>
      match at_exchange a with
      | Some err => log_Fatalf ("Unable to retrieve token from web: " ++ err)
      | None => ret tt
      end
  end.

(** [saveToken]. *)
Definition saveToken (a : Attempt) : M unit :=
  match at_openTokenFile a with
  | Some err => log_Fatalf ("Unable to cache oauth token: " ++ err)
  | None => ret tt
  end.

(** [getClient]. *)
Definition getClient (a : Attempt) : M unit :=
  match at_tokenFromFile a with
  | Some _ => getTokenFromWeb a ;;; saveToken a
  | None => ret tt
  end.

(** [sheetsProvider.Query]. *)
Definition Query (s : sheetsProvider) : M (result (list Row)) :=
  a <- next_attempt ;;
  if String.eqb (googleSheetsID s) "" then ret (Err "GOOGLE_SHEET_ID not set")
  else if String.eqb (sheetName s) "" then ret (Err "SHEET_NAME not set")
  else
    match at_readCredentials a with
    | Some err => log_Fatalf ("Unable to read client secret file: " ++ err)
    | None =>
        match at_configFromJSON a with
        | Some err =>
            log_Fatalf ("Unable to parse client secret file to config: " ++ err)
        | None =>
            getClient a ;;;
            match at_newService a with
            | Some err => log_Fatalf ("Unable to retrieve Sheets client: " ++ err)
            | None =>
                match at_valuesGet a with
                | Err err => log_Fatalf ("Unable to retrieve data from sheet: " ++ err)
                | Ok values => ret (Ok values)
                end
            end
        end
    end.

(** *** The cache *)

(** The body of the loop of [urlMap]: what one row does to [out]. *)
Definition urlMap_row (out : URLMap) (row : Row) : M URLMap :=
  match row with
  | CString k :: CString v :: _ =>
      if String.eqb k "" then ret out
      else if String.eqb v "" then ret out
      else
        let k := strings_ToLower k in
        match url_Parse v with
        | Err _ => ret out
        | Ok u => p <- alloc u ;; ret (<[k := p]> out)
        end
  | _ => ret out   (* len(row) < 2, or a cell that is not a string *)
  end.

(** [for _, x := range l] threading an accumulator. *)
Fixpoint range_fold {A B} (body : A -> B -> M A) (l : list B) (acc : A) : M A :=
  match l with
  | [] => ret acc
  | x :: l' => acc' <- body acc x ;; range_fold body l' acc'
  end.

(** [urlMap]. *)
Definition urlMap (rows : list Row) : M URLMap :=
  range_fold urlMap_row rows ∅.

(** [cachedURLMap.Refresh]; [None] is the [nil] error. *)
Definition Refresh : M (option error) :=
  c <- get_cache ;;
  d <- time_Since (c_lastUpdate c) ;;
  if d <=? c_ttl c then ret None
  else
    r <- Query (c_sheet c) ;;
    match r with
    | Err err => ret (Some err)
    | Ok rows =>
        m <- urlMap rows ;;
        now <- time_Now ;;
        put_cache (mkCache m now (c_ttl c) (c_sheet c)) ;;;
        ret None
    end.

(** [cachedURLMap.Get]; a key that is absent gives the [nil] pointer,
    here [None]. *)
Definition Get (query : string) : M (result (option nat)) :=
  e <- Refresh ;;
  match e with
  | Some err => ret (Err err)
  | None => c <- get_cache ;; ret (Ok (c_v c !! query))
  end.

(** *** The resolver *)

(** [prepRedirect]: it writes through [base] and returns [base]. *)
Definition prepRedirect (base : nat) (addPath : string) (query : Values) : M nat :=
  (if negb (String.eqb addPath "") then
     u <- load base ;;
     (if negb (Strings.HasSuffix (Path u) "/")
      then store base (set_Path (Path u ++ "/") u)
      else ret tt) ;;;
     u <- load base ;;
     store base (set_Path (Path u ++ addPath) u)
   else ret tt) ;;;
  u <- load base ;;
  let qs := map_fold (fun k _ qs => Values_Add qs k (Values_Get query k))
              (URL_Query u) query in
  u <- load base ;;
  store base (set_RawQuery (Values_Encode (URL_Query u)) u) ;;;
  ret base.

(** The loop of [findRedirect].  The test of the loop is the match on
    [segments]; [fuel] only makes the recursion structural, and
    [length segments] of it is enough. *)
Fixpoint findRedirect_loop (fuel : nat) (req : URL) (segments discard : list string)
  : M (result (option nat)) :=
  match segments with
  | [] => ret (Ok None)
  | _ :: _ =>
      match fuel with
      | O => panic "findRedirect_loop: no fuel"
      | S fuel' =>
          let query := Strings.Join segments "/" in
          r <- Get query ;;
          match r with
          | Err err => ret (Err err)
          | Ok (Some v) =>
              p <- prepRedirect v (Strings.Join discard "/") (URL_Query req) ;;
              ret (Ok (Some p))
          | Ok None =>
              let segments := take (length segments - 1) segments in
              let i := Z.of_nat (length segments) - 1 in
              if i <? 0 then panic "index out of range [-1]"
              else
                match segments !! Z.to_nat i with
                | None => panic "index out of range"
                | Some last => findRedirect_loop fuel' req segments (last :: discard)
                end
          end
      end
  end.

(** [server.findRedirect]. *)
Definition findRedirect (req : URL) : M (result (option nat)) :=
  let path := Strings.TrimPrefix (Path req) "/" in
  let segments := Strings.Split path "/" in
  findRedirect_loop (length segments) req segments [].

End Program.

(** ** A concrete library for the examples

    The examples below run the program on concrete requests, so they need
    values for the library functions.  [ToLower] maps the ASCII letters,
    and the query functions and [Parse] follow [net/url] on strings without
    percent escapes. *)

Module Demo.

Definition lower_ascii (c : ascii) : ascii :=
  let n := nat_of_ascii c in
  if ((65 <=? n) && (n <=? 90))%nat then ascii_of_nat (n + 32) else c.

Fixpoint ToLower (s : string) : string :=
  match s with
  | EmptyString => EmptyString
  | String c s' => String (lower_ascii c) (ToLower s')
  end.

(** The part of [s] before the first [sep] and the part after it. *)
Fixpoint cut (s : string) (sep : ascii) : string * string :=
  match s with
  | EmptyString => (EmptyString, EmptyString)
  | String c s' =>
      if Ascii.eqb c sep then (EmptyString, s')
      else let '(a, b) := cut s' sep in (String c a, b)
  end.

(** A control byte, as [url.Parse] refuses it. *)
Definition is_ctl (c : ascii) : bool :=
  let n := nat_of_ascii c in ((n <? 32) || (n =? 127))%nat.

Fixpoint has_ctl (s : string) : bool :=
  match s with
  | EmptyString => false
  | String c s' => is_ctl c || has_ctl s'
  end.

Fixpoint has_colon (s : string) : bool :=
  match s with
  | EmptyString => false
  | String c s' => Ascii.eqb c ":" || has_colon s'
  end.

(** The part of [s] before the first [sep], and the rest with its [sep]. *)
Fixpoint cut_before (s : string) (sep : ascii) : string * string :=
  match s with
  | EmptyString => (EmptyString, EmptyString)
  | String c s' =>
      if Ascii.eqb c sep then (EmptyString, s)
      else let '(a, b) := cut_before s' sep in (String c a, b)
  end.

(** [getScheme] of [net/url]: [None] is its error, [Some None] a string
    without a scheme, [Some (Some (scheme, rest))] a scheme and what
    follows its colon. *)
Fixpoint getScheme (raw : string) (first : bool) : option (option (string * string)) :=
  match raw with
  | EmptyString => Some None
  | String c r =>
      let n := nat_of_ascii c in
      let more :=
        match getScheme r false with
        | Some (Some (scheme, rest)) => Some (Some (String c scheme, rest))
        | other => other
        end in
      if (((97 <=? n) && (n <=? 122)) || ((65 <=? n) && (n <=? 90)))%nat then more
      else if (((48 <=? n) && (n <=? 57)) || (n =? 43) || (n =? 45) || (n =? 46))%nat
           then if first then Some None else more
      else if Ascii.eqb c ":" then if first then None else Some (Some (EmptyString, r))
      else Some None
  end.

(** [url.Parse], following the steps of [net/url] for strings without
    percent escapes and with a plain host: the fragment is cut off, a
    control byte or a colon in front is an error, then come the scheme, the
    query, the authority and the path.  The opaque part of a URL such as
    [mailto:x] has no field in [URL] and is dropped. *)
Definition Parse (raw : string) : result URL :=
  let '(u, frag) := cut raw "#" in
  if has_ctl u then Err ("parse " ++ raw ++ ": net/url: invalid control character in URL")
  else
    match getScheme u true with
    | None => Err ("parse " ++ raw ++ ": missing protocol scheme")
    | Some sp =>
        let scheme := match sp with Some (sch, _) => ToLower sch | None => "" end in
        let rest := match sp with Some (_, r) => r | None => u end in
        let '(rest, query) := cut rest "?" in
        if negb (String.prefix "/" rest) && negb (String.eqb scheme "")
        then Ok (mkURL scheme "" "" query frag)
        else if negb (String.prefix "/" rest) && has_colon (fst (cut rest "/"))
        then Err ("parse " ++ raw ++ ": first path segment in URL cannot contain colon")
        else if String.prefix "//" rest
                && (negb (String.eqb scheme "") || negb (String.prefix "///" rest))
        then
          let '(authority, path) :=
            cut_before (String.substring 2 (String.length rest - 2) rest) "/" in
          Ok (mkURL scheme authority path query frag)
        else Ok (mkURL scheme "" rest query frag)
    end.

Definition ParseQuery (s : string) : Values :=
  fold_left
    (fun vs piece =>
       if String.eqb piece "" then vs
       else let '(k, v) := cut piece "=" in Values_Add vs k v)
    (Strings.Split s "&") ∅.

Definition Encode (vs : Values) : string :=
  let keys := merge_sort (fun a b => String.leb a b) (map fst (map_to_list vs)) in
  Strings.Join
    (flat_map (fun k => map (fun v => k ++ "=" ++ v) (default [] (vs !! k))) keys)
    "&".

Definition lib : GoLib := Build_GoLib ToLower Parse ParseQuery Encode.

(** The request [path?rawQuery]. *)
Definition request (path rawQuery : string) : URL := mkURL "" "" path rawQuery "".

(** A world whose clock stands still at [now] and whose provider answers
    every query with [rows]. *)
Definition steady (now : Z) (rows : list Row) : World :=
  mkWorld (fun _ => now) 0
    (fun _ => mkAttempt None None None None None None None (Ok rows)) 0.

(** The state of the server at start-up ([main]): an empty cache whose
    last update is the zero time, and a ttl of five seconds. *)
Definition startup (id name : string) (w : World) : State :=
  mkState (mkCache ∅ 0 5000000000 (mkProvider id name)) [] w.

(** A date in 2026, in nanoseconds since the zero time. *)
Definition today : Z := 63900000000 * 1000000000.

(** The server just started, its sheet holding [rows]. *)
Definition serving (rows : list Row) : State :=
  startup "sheet" "Sheet1" (steady today rows).

(** A world whose clock stands still at [now] and whose provider fails
    to fetch the sheet, with error [e], at every query. *)
Definition failing (now : Z) (e : error) : World :=
  mkWorld (fun _ => now) 0
    (fun _ => mkAttempt None None None None None None None (Err e)) 0.

(** The server just started with its sheet identifier not set. *)
Definition unconfigured : State :=
  startup "" "Sheet1" (steady today []).

(** A world in which the first fetch of the sheet gives [rows] and every
    later one fails with [e], and whose clock, after the two readings of
    the first refresh, is ten seconds later. *)
Definition flaky (rows : list Row) (e : error) : World :=
  mkWorld (fun n => if (n <? 2)%nat then today else today + 10000000000) 0
    (fun n => mkAttempt None None None None None None None
                (if (n =? 0)%nat then Ok rows else Err e)) 0.

(** A sheet with a shortcut, a deeper shortcut and one in upper case. *)
Definition sheet : list Row :=
  [[CString "a"; CString "https://example.com/x"];
   [CString "a/b"; CString "https://example.com/y?k=v"];
   [CString "Go"; CString "https://go.dev/"]].

(** The server after its first refresh, the clock standing still. *)
Definition refreshed (rows : list Row) : State :=
  snd (@Refresh lib (serving rows)).

(** The server after a first refresh that went through, ten seconds later
    and with a provider that fails from now on. *)
Definition stale (rows : list Row) (e : error) : State :=
  snd (@Refresh lib (startup "sheet" "Sheet1" (flaky rows e))).

End Demo.

(** ** Vocabulary of the statements *)

(** What [time.Since(c.lastUpdate)] evaluates to when called in state [s]. *)
Definition since_lastUpdate (s : State) : Z :=
  Time_Sub (clock (world s) (reads (world s))) (c_lastUpdate (cache s)).

(** The test of [Refresh]: the cached mapping is still within its ttl. *)
Definition within_ttl (s : State) : Prop :=
  since_lastUpdate s <= c_ttl (cache s).

(** No reading of the clock, now or later, finds the ttl passed: between
    two refreshes. *)
Definition always_within_ttl (s : State) : Prop :=
  forall n : nat,
    Time_Sub (clock (world s) n) (c_lastUpdate (cache s)) <= c_ttl (cache s).

(** The URL a pointer returned by the cache or the resolver points to. *)
Definition deref (s : State) (p : option nat) : option URL :=
  match p with
  | Some l => heap s !! l
  | None => None
  end.

(** What [prepRedirect] leaves behind its pointer [base] when [u] was behind
    it at the call. *)
Definition redirected `{GoLib} (u : URL) (addPath : string) : URL :=
  let u1 :=
    if negb (String.eqb addPath "") then
      let u0 := if negb (Strings.HasSuffix (Path u) "/")
                then set_Path (Path u ++ "/") u else u in
      set_Path (Path u0 ++ addPath) u0
    else u in
  set_RawQuery (Values_Encode (URL_Query u1)) u1.

(** Following the rules of the specification for one raw row: the key and
    the destination the row contributes, if it is valid (at least two
    columns, both non-empty strings, a destination that parses). *)
Definition valid_row `{GoLib} (row : Row) : option (string * URL) :=
  match row with
  | CString k :: CString v :: _ =>
      if decide (k = "" \/ v = "") then None
      else match url_Parse v with
           | Ok u => Some (strings_ToLower k, u)
           | Err _ => None
           end
  | _ => None
  end.

(** Every pointer the mapping holds is allocated. *)
Definition well_formed (s : State) : Prop :=
  forall q l, c_v (cache s) !! q = Some l -> (l < length (heap s))%nat.

(** The keys and destinations the valid rows contribute, in the order of
    the rows. *)
Definition contributions `{GoLib} (rows : list Row) : list (string * URL) :=
  omap valid_row rows.

(** The segments [findRedirect] starts from. *)
Definition segments_of (req : URL) : list string :=
  Strings.Split (Strings.TrimPrefix (Path req) "/") "/".

(** ** The HTTP handler *)

(** What a handler has done to its [http.ResponseWriter]: the status sent,
    if any, the headers set and the body written. *)
Record ResponseWriter := mkResponse {
  rw_status : option Z;
  rw_header : list (string * string);
  rw_body : string
}.

(** [WriteHeader]: the first status is the one that is sent, a later call
    is ignored by [net/http]. *)
Definition WriteHeader (code : Z) (w : ResponseWriter) : ResponseWriter :=
  match rw_status w with
  | Some _ => w
  | None => mkResponse (Some code) (rw_header w) (rw_body w)
  end.

(** [Write], as [fmt.Fprintf] calls it: a write before any status sends
    200 first. *)
Definition Write (text : string) (w : ResponseWriter) : ResponseWriter :=
  let w := WriteHeader 200 w in
  mkResponse (rw_status w) (rw_header w) (rw_body w ++ text).

(** [writeError], with its format already applied to its values. *)
Definition writeError (w : ResponseWriter) (code : Z) (text : string) : ResponseWriter :=
  Write text (WriteHeader code w).

(** The library functions of the handler whose bodies are outside the
    repository. *)
Class HttpLib := {
  (** the method [String] of [URL] *)
  URL_String : URL -> string;
  (** [http.Redirect] *)
  http_Redirect : ResponseWriter -> URL -> string -> Z -> ResponseWriter
}.

(** [server.redirect].  On an error it writes the 500 and goes on: there
    is no [return] after [writeError]. *)
Definition redirect `{GoLib} `{HttpLib} (w : ResponseWriter) (req : URL)
  : M ResponseWriter :=
  r <- findRedirect req ;;
  let redirTo := match r with Ok p => p | Err _ => None end in
  let w := match r with
           | Err err => writeError w 500 ("failed to find redirect: " ++ err)
           | Ok _ => w
           end in
  match redirTo with
  | None => ret (Write "shortcut not found" (WriteHeader 404 w))
  | Some p => u <- load p ;; ret (http_Redirect w req (URL_String u) 301)
  end.

(** A handler library for the examples: the URL is printed from its scheme,
    host, path and query, and the redirect sets the status and the
    [Location] header. *)
Definition demo_http : HttpLib :=
  Build_HttpLib
    (fun u => Scheme u ++ "://" ++ Host u ++ Path u
              ++ (if String.eqb (RawQuery u) "" then "" else "?" ++ RawQuery u))
    (fun w _ url code =>
       mkResponse (Some code) (("Location", url) :: rw_header w) (rw_body w)).

(** The [ResponseWriter] a handler receives. *)
Definition fresh_response : ResponseWriter := mkResponse None [] "".

(** ** Facts about the monad and the library functions *)

Lemma Split_nonempty (s : string) (sep : ascii) : Strings.Split s sep <> [].
Proof.
  destruct s as [|c s]; simpl; [discriminate|].
  destruct (Ascii.eqb c sep); [discriminate|].
  destruct (Strings.Split s sep); discriminate.
Qed.

Lemma bind_Done {A B} (m : M A) (k : A -> M B) (s s' : State) (a : A) :
  m s = (Done a, s') -> bind m k s = k a s'.
Proof. intros E. unfold bind. now rewrite E. Qed.

Lemma bind_not_Done {A B} (m : M A) (k : A -> M B) (s : State) :
  (forall a, fst (m s) <> Done a) ->
  (forall b, fst (bind m k s) <> Done b).
Proof.
  intros Hm b. unfold bind.
  destruct (m s) as [[a|msg|msg] s'] eqn:E; simpl; try discriminate.
  exfalso. now apply (Hm a).
Qed.

(** Unfolds the monadic plumbing. *)
Ltac run :=
  unfold bind, ret, panic, log_Fatalf, get_cache, put_cache, alloc, load, store,
    time_Since, time_Now, next_attempt in *; simpl in *.

Section Facts.

Context `{GoLib}.

(** *** The provider *)

Lemma getClient_state (a : Attempt) (s : State) : snd (getClient a s) = s.
Proof.
  unfold getClient, getTokenFromWeb, saveToken. run.
  destruct (at_tokenFromFile a); [|reflexivity].
  destruct (at_scanAuthCode a); [reflexivity|].
  destruct (at_exchange a); [reflexivity|].
  destruct (at_openTokenFile a); reflexivity.
Qed.

(** Whatever its outcome, a call of [Query] is counted once and touches
    neither the cache nor the heap. *)
Lemma Query_state (p : sheetsProvider) (s : State) : snd (Query p s) = asked s.
Proof.
  unfold Query. run.
  destruct (String.eqb (googleSheetsID p) ""); [reflexivity|].
  destruct (String.eqb (sheetName p) ""); [reflexivity|].
  destruct (at_readCredentials _); [reflexivity|].
  destruct (at_configFromJSON _); [reflexivity|].
  pose proof (getClient_state (attempts (world s) (queries (world s))) (asked s)) as Hc.
  destruct (getClient _ _) as [[[]|msg|msg] s']; simpl in Hc; subst s'; try reflexivity.
  destruct (at_newService _); [reflexivity|].
  destruct (at_valuesGet _); reflexivity.
Qed.

(** *** [urlMap] *)

Lemma range_fold_app {A B} (body : A -> B -> M A) (l1 l2 : list B) (acc : A)
    (s : State) :
  range_fold body (l1 ++ l2)%list acc s =
  bind (range_fold body l1 acc) (range_fold body l2) s.
Proof.
  revert acc s. induction l1 as [|x l1 IH]; intros acc s; simpl.
  - reflexivity.
  - unfold bind.
    destruct (body acc x s) as [[acc'|msg|msg] s1]; try reflexivity.
    rewrite IH. reflexivity.
Qed.

(** One row either allocates its destination and binds its key, or leaves
    [out] as it is; it never fails. *)
Lemma urlMap_row_spec (out : URLMap) (row : Row) (s : State) :
  urlMap_row out row s =
  match valid_row row with
  | Some (k, u) =>
      (Done (<[k := length (heap s)]> out),
       mkState (cache s) (heap s ++ [u])%list (world s))
  | None => (Done out, s)
  end.
Proof.
  unfold urlMap_row, valid_row.
  destruct row as [|[k| | |] [|[v| | |] row]]; try reflexivity.
  destruct (String.eqb_spec k "") as [->|Hk].
  { rewrite decide_True by now left. reflexivity. }
  destruct (String.eqb_spec v "") as [->|Hv].
  { rewrite decide_True by now right. reflexivity. }
  rewrite decide_False by (intros [?|?]; contradiction).
  destruct (url_Parse v); reflexivity.
Qed.

(** The invariant of the loop of [urlMap], by induction on the rows read
    so far: the heap only grows, every pointer of the mapping is
    allocated, a valid row that no later valid row overrides is in the
    mapping, and every key of the mapping comes from a valid row. *)
Lemma urlMap_inv (rows : list Row) (s : State) :
  exists (m : URLMap) (news : list URL),
    urlMap rows s = (Done m, mkState (cache s) (heap s ++ news)%list (world s))
    /\ (forall q l, m !! q = Some l -> (l < length (heap s ++ news)%list)%nat)
    /\ (forall (i : nat) row k u,
          rows !! i = Some row -> valid_row row = Some (k, u) ->
          (forall (j : nat) row' u', (i < j)%nat -> rows !! j = Some row' ->
                                valid_row row' <> Some (k, u')) ->
          exists l, m !! k = Some l /\ (heap s ++ news)%list !! l = Some u)
    /\ (forall q l, m !! q = Some l ->
          exists (i : nat) row u, rows !! i = Some row /\ valid_row row = Some (q, u)).
Proof.
  unfold urlMap. induction rows as [|r rows IH] using rev_ind.
  - exists ∅, []. simpl. rewrite app_nil_r. destruct s; simpl.
    repeat split; intros; simplify_map_eq.
  - destruct IH as (m & news & Hrun & Hbound & Hlast & Hfrom).
    rewrite range_fold_app, (bind_Done _ _ _ _ _ Hrun). simpl.
    unfold bind. rewrite urlMap_row_spec. simpl.
    destruct (valid_row r) as [[k0 u0]|] eqn:Hr; simpl.
    + exists (<[k0 := length (heap s ++ news)%list]> m), (news ++ [u0])%list.
      rewrite !app_assoc. split; [reflexivity|]. split; [|split].
      * intros q l Hq. rewrite length_app. simpl.
        destruct (decide (k0 = q)) as [->|Hne].
        -- rewrite lookup_insert_eq in Hq. inversion Hq. lia.
        -- rewrite lookup_insert_ne in Hq by done. apply Hbound in Hq. lia.
      * intros i row k u Hi Hv Hlater.
        apply lookup_app_Some in Hi as [Hi|[Hge Hi]].
        -- assert (k0 <> k) as Hne.
           { intros ->. apply (Hlater (length rows) r u0).
             - now apply lookup_lt_Some in Hi.
             - now rewrite list_lookup_middle.
             - exact Hr. }
           destruct (Hlast i row k u Hi Hv) as (l & Hl & Hu).
           { intros j row' u' Hij Hj. apply (Hlater j row' u' Hij).
             apply lookup_app_l_Some. exact Hj. }
           exists l. rewrite lookup_insert_ne by done. split; [exact Hl|].
           apply lookup_app_l_Some. exact Hu.
        -- destruct (i - length rows)%nat as [|n] eqn:En; simpl in Hi; [|done].
           inversion Hi; subst row. rewrite Hr in Hv. inversion Hv; subst k0 u0.
           exists (length (heap s ++ news)%list).
           rewrite lookup_insert_eq. split; [reflexivity|].
           now rewrite list_lookup_middle.
      * intros q l Hq. destruct (decide (k0 = q)) as [->|Hne].
        -- exists (length rows), r, u0. split; [now rewrite list_lookup_middle|exact Hr].
        -- rewrite lookup_insert_ne in Hq by done.
           destruct (Hfrom q l Hq) as (i & row & u & Hi & Hv).
           exists i, row, u. split; [now apply lookup_app_l_Some|exact Hv].
    + exists m, news. split; [reflexivity|]. split; [exact Hbound|]. split.
      * intros i row k u Hi Hv Hlater.
        apply lookup_app_Some in Hi as [Hi|[Hge Hi]].
        -- apply (Hlast i row k u Hi Hv).
           intros j row' u' Hij Hj. apply (Hlater j row' u' Hij).
           apply lookup_app_l_Some. exact Hj.
        -- destruct (i - length rows)%nat as [|n] eqn:En; simpl in Hi; [|done].
           inversion Hi; subst row. rewrite Hr in Hv. discriminate.
      * intros q l Hq. destruct (Hfrom q l Hq) as (i & row & u & Hi & Hv).
        exists i, row, u. split; [now apply lookup_app_l_Some|exact Hv].
Qed.

(** *** [Refresh] and [Get] *)

Lemma Refresh_within (s : State) :
  within_ttl s -> Refresh s = (Done None, tick s).
Proof.
  unfold within_ttl, since_lastUpdate, Refresh. intros Hle. run.
  destruct (Z.leb_spec (Time_Sub (clock (world s) (reads (world s)))
                          (c_lastUpdate (cache s))) (c_ttl (cache s))); [reflexivity|lia].
Qed.

(** Past the ttl, [Refresh] is what follows its test. *)
Lemma Refresh_elapsed (s : State) :
  ~ within_ttl s ->
  Refresh s =
  bind (Query (c_sheet (cache s)))
    (fun r =>
       match r with
       | Err err => ret (Some err)
       | Ok rows =>
           m <- urlMap rows ;;
           now <- time_Now ;;
           put_cache (mkCache m now (c_ttl (cache s)) (c_sheet (cache s))) ;;;
           ret None
       end) (tick s).
Proof.
  unfold within_ttl, since_lastUpdate, Refresh. intros Hgt.
  unfold bind at 1 2, get_cache, time_Since, time_Now at 1, bind at 1, ret at 1. simpl.
  destruct (Z.leb_spec (Time_Sub (clock (world s) (reads (world s)))
                          (c_lastUpdate (cache s))) (c_ttl (cache s))); [lia|reflexivity].
Qed.

Lemma Refresh_query_error (s : State) (e : error) :
  ~ within_ttl s ->
  fst (Query (c_sheet (cache s)) (tick s)) = Done (Err e) ->
  Refresh s = (Done (Some e), asked (tick s)).
Proof.
  intros Hgt Hq. rewrite Refresh_elapsed by exact Hgt. unfold bind.
  pose proof (Query_state (c_sheet (cache s)) (tick s)) as Hs.
  destruct (Query (c_sheet (cache s)) (tick s)) as [o s1]. simpl in *. subst. reflexivity.
Qed.

(** Past the ttl, a call of [Refresh] makes one query, whatever follows. *)
Lemma Refresh_elapsed_queries (s : State) :
  ~ within_ttl s ->
  queries (world (snd (Refresh s))) = S (queries (world s)).
Proof.
  intros Hgt. rewrite Refresh_elapsed by exact Hgt. unfold bind.
  pose proof (Query_state (c_sheet (cache s)) (tick s)) as Hs.
  destruct (Query (c_sheet (cache s)) (tick s)) as [[[rows|err]|msg|msg] s1];
    simpl in Hs; subst s1; try reflexivity.
  destruct (urlMap_inv rows (asked (tick s))) as (m & news & Hrun & _).
  rewrite Hrun. reflexivity.
Qed.

(** An error comes out of [Refresh] only from the query it made, and then
    nothing but the count of queries and of clock readings has changed. *)
Lemma Refresh_error_inv (s : State) (e : error) :
  fst (Refresh s) = Done (Some e) ->
  ~ within_ttl s
  /\ fst (Query (c_sheet (cache s)) (tick s)) = Done (Err e)
  /\ snd (Refresh s) = asked (tick s).
Proof.
  intros Hr. destruct (decide (within_ttl s)) as [Hin|Hout].
  { rewrite Refresh_within in Hr by exact Hin. discriminate. }
  split; [exact Hout|]. rewrite Refresh_elapsed in Hr |- * by exact Hout.
  unfold bind in *.
  pose proof (Query_state (c_sheet (cache s)) (tick s)) as Hs.
  destruct (Query (c_sheet (cache s)) (tick s)) as [[[rows|err]|msg|msg] s1];
    simpl in Hs; subst s1; simpl in *; try discriminate.
  - destruct (urlMap_inv rows (asked (tick s))) as (m & news & Hrun & _).
    rewrite Hrun in Hr. discriminate.
  - inversion Hr. split; reflexivity.
Qed.

Lemma Get_within (query : string) (s : State) :
  within_ttl s -> Get query s = (Done (Ok (c_v (cache s) !! query)), tick s).
Proof.
  intros Hin. unfold Get, bind. rewrite Refresh_within by exact Hin. reflexivity.
Qed.

(** *** The loop of [findRedirect] *)

(** One turn of the loop on a sequence that is not empty. *)
Lemma findRedirect_loop_turn (fuel : nat) (req : URL) (x : string)
    (segments discard : list string) (s : State) :
  findRedirect_loop (S fuel) req (x :: segments) discard s =
  bind (Get (Strings.Join (x :: segments) "/"))
    (fun r =>
       match r with
       | Err err => ret (Err err)
       | Ok (Some v) =>
           p <- prepRedirect v (Strings.Join discard "/") (URL_Query req) ;;
           ret (Ok (Some p))
       | Ok None =>
           let segments' := take (length (x :: segments) - 1) (x :: segments) in
           let i := Z.of_nat (length segments') - 1 in
           if i <? 0 then panic "index out of range [-1]"
           else
             match segments' !! Z.to_nat i with
             | None => panic "index out of range"
             | Some last => findRedirect_loop fuel req segments' (last :: discard)
             end
       end) s.
Proof. reflexivity. Qed.

(** *** [prepRedirect] *)

Lemma prepRedirect_spec (base : nat) (addPath : string) (query : Values)
    (s : State) (u : URL) :
  heap s !! base = Some u ->
  prepRedirect base addPath query s =
  (Done base, mkState (cache s) (<[base := redirected u addPath]> (heap s)) (world s)).
Proof.
  intros Hu. pose proof (lookup_lt_Some _ _ _ Hu) as Hlt.
  unfold prepRedirect, redirected. run.
  destruct (String.eqb addPath ""); simpl.
  - repeat (rewrite Hu; simpl). reflexivity.
  - rewrite Hu; simpl. destruct (Strings.HasSuffix (Path u) "/"); simpl.
    + repeat (rewrite Hu; simpl).
      repeat (rewrite list_lookup_insert_eq by exact Hlt; simpl).
      rewrite !list_insert_insert_eq. reflexivity.
    + repeat (rewrite Hu; simpl).
      repeat (rewrite list_lookup_insert_eq by (rewrite ?length_insert; exact Hlt); simpl).
      rewrite !list_insert_insert_eq. reflexivity.
Qed.

Lemma prepRedirect_nil (base : nat) (addPath : string) (query : Values) (s : State) :
  heap s !! base = None ->
  prepRedirect base addPath query s =
  (Panicked "invalid memory address or nil pointer dereference", s).
Proof.
  intros Hu. unfold prepRedirect. run.
  destruct (String.eqb addPath ""); simpl; repeat (rewrite Hu; simpl); reflexivity.
Qed.

(** *** Neither the cache nor the provider panics *)

Lemma Query_no_panic (p : sheetsProvider) (s : State) (msg : string) :
  fst (Query p s) <> Panicked msg.
Proof.
  unfold Query, getClient, getTokenFromWeb, saveToken. run.
  repeat (match goal with
          | |- context [if ?b then _ else _] => destruct b
          | |- context [match ?o with Some _ => _ | None => _ end] => destruct o
          | |- context [match ?o with Ok _ => _ | Err _ => _ end] => destruct o
          end; simpl); discriminate.
Qed.

Lemma Refresh_no_panic (s : State) (msg : string) :
  fst (Refresh s) <> Panicked msg.
Proof.
  destruct (decide (within_ttl s)) as [Hin|Hout].
  { rewrite Refresh_within by exact Hin. discriminate. }
  rewrite Refresh_elapsed by exact Hout. unfold bind.
  pose proof (Query_no_panic (c_sheet (cache s)) (tick s)) as Hq.
  destruct (Query (c_sheet (cache s)) (tick s)) as [[[rows|err]|msg'|msg'] s1];
    simpl in *; try discriminate.
  - destruct (urlMap_inv rows s1) as (m & news & Hrun & _).
    rewrite Hrun. discriminate.
  - exfalso. now apply (Hq msg').
Qed.

Lemma Get_no_panic (query : string) (s : State) (msg : string) :
  fst (Get query s) <> Panicked msg.
Proof.
  unfold Get, bind. pose proof (Refresh_no_panic s) as Hr.
  destruct (Refresh s) as [[[err|]|msg'|msg'] s1]; simpl in *; try discriminate.
  exfalso. now apply (Hr msg').
Qed.

(** The length of the sequence is fuel enough. *)
Lemma findRedirect_loop_fuel (fuel : nat) (req : URL)
    (segments discard : list string) (s : State) :
  (length segments <= fuel)%nat ->
  fst (findRedirect_loop fuel req segments discard s)
  <> Panicked "findRedirect_loop: no fuel".
Proof.
  revert segments discard s.
  induction fuel as [|fuel IH]; intros [|x segments] discard s Hlen;
    try (simpl; discriminate); [simpl in Hlen; lia|].
  rewrite findRedirect_loop_turn. unfold bind at 1.
  pose proof (Get_no_panic (Strings.Join (x :: segments) "/") s) as Hg.
  destruct (Get _ s) as [[[[v|]|err]|msg|msg] s1]; try (simpl; discriminate).
  - destruct (heap s1 !! v) as [u|] eqn:Hv; unfold bind.
    + rewrite (prepRedirect_spec _ _ _ _ _ Hv). simpl; discriminate.
    + rewrite (prepRedirect_nil _ _ _ _ Hv). simpl; discriminate.
  - cbv zeta. destruct (_ <? 0); [simpl; discriminate|].
    destruct (_ !! _) as [last|]; [|simpl; discriminate].
    apply IH. rewrite length_take. simpl in *. lia.
  - exfalso. now apply (Hg msg).
Qed.

(** [findRedirect] gives its loop fuel enough. *)
Lemma findRedirect_fuel (req : URL) (s : State) :
  fst (findRedirect req s) <> Panicked "findRedirect_loop: no fuel".
Proof. unfold findRedirect. apply findRedirect_loop_fuel. lia. Qed.

(** The loop never leaves through its test: a sequence that is not empty
    is indexed at [-1] before it could be tested empty. *)
Lemma findRedirect_loop_not_absent (fuel : nat) (req : URL)
    (segments discard : list string) (s : State) :
  segments <> [] ->
  fst (findRedirect_loop fuel req segments discard s) <> Done (Ok None).
Proof.
  revert segments discard s.
  induction fuel as [|fuel IH]; intros [|x segments] discard s Hne;
    try contradiction; [simpl; discriminate|].
  rewrite findRedirect_loop_turn. unfold bind at 1.
  destruct (Get _ s) as [[[[v|]|err]|msg|msg] s1]; try (simpl; discriminate).
  - unfold bind. destruct (prepRedirect _ _ _ s1) as [[p|msg|msg] s2];
      simpl; discriminate.
  - cbv zeta. destruct (_ <? 0); [simpl; discriminate|].
    destruct (_ !! _) as [last|] eqn:Hl; [|simpl; discriminate].
    apply IH. intros Hnil. rewrite Hnil in Hl. discriminate.
Qed.

(** *** The loop between two refreshes *)

Lemma always_within_ttl_now (s : State) : always_within_ttl s -> within_ttl s.
Proof. intros Hs. apply Hs. Qed.

Lemma always_within_ttl_tick (s : State) :
  always_within_ttl s -> always_within_ttl (tick s).
Proof. intros Hs n. apply Hs. Qed.

Lemma cache_iter_tick (n : nat) (s : State) : cache (Nat.iter n tick s) = cache s.
Proof. induction n as [|n IH]; simpl; [reflexivity|exact IH]. Qed.

Lemma iter_tick_shift (n : nat) (s : State) :
  Nat.iter n tick (tick s) = Nat.iter (S n) tick s.
Proof. induction n as [|n IH]; simpl; [reflexivity|now rewrite IH]. Qed.

(** When the sequence matches at no depth, the loop ends at the index
    [-1] of the emptied sequence. *)
Lemma findRedirect_loop_all_miss (fuel : nat) (req : URL)
    (segments discard : list string) (s : State) :
  segments <> [] ->
  (length segments <= fuel)%nat ->
  always_within_ttl s ->
  (forall j : nat, (1 <= j)%nat ->
              c_v (cache s) !! Strings.Join (take j segments) "/" = None) ->
  fst (findRedirect_loop fuel req segments discard s)
  = Panicked "index out of range [-1]".
Proof.
  revert segments discard s.
  induction fuel as [|fuel IH]; intros [|x segments] discard s Hne Hlen Hs Hmiss;
    try contradiction; [simpl in Hlen; lia|].
  rewrite findRedirect_loop_turn. unfold bind at 1.
  rewrite Get_within by (apply always_within_ttl_now, Hs).
  pose proof (Hmiss (length (x :: segments))) as Hall.
  rewrite firstn_all in Hall. rewrite Hall by (simpl; lia). cbv zeta.
  assert (length (take (length (x :: segments) - 1) (x :: segments)) = length segments)
    as Hl by (rewrite length_take; simpl; lia).
  rewrite Hl. destruct segments as [|y segments].
  - reflexivity.
  - destruct (Z.ltb_spec (Z.of_nat (length (y :: segments)) - 1) 0) as [Hneg|_];
      [simpl in Hneg; lia|].
    destruct (take _ _ !! _) as [last|] eqn:Hlast.
    + apply IH.
      * intros Hnil. rewrite Hnil in Hlast. discriminate.
      * rewrite Hl. simpl in *. lia.
      * apply always_within_ttl_tick, Hs.
      * intros j Hj. rewrite take_take. apply Hmiss. simpl. lia.
    + apply lookup_ge_None in Hlast. rewrite Hl in Hlast. simpl in Hlast. lia.
Qed.

(** When the deepest match is at depth [k], the path handed to
    [prepRedirect] is made of the segments [k .. n-1] of the [n] segments
    (counting from 1): the last segment is lost and the last segment of
    the shortcut is repeated. *)
Lemma findRedirect_loop_match (fuel : nat) (req : URL)
    (segments discard : list string) (s : State) (k v : nat) :
  (length segments <= fuel)%nat ->
  (1 <= k <= length segments)%nat ->
  always_within_ttl s ->
  c_v (cache s) !! Strings.Join (take k segments) "/" = Some v ->
  (forall j : nat, (k < j <= length segments)%nat ->
              c_v (cache s) !! Strings.Join (take j segments) "/" = None) ->
  findRedirect_loop fuel req segments discard s
  = bind (prepRedirect v
            (Strings.Join
               (drop (k - 1) (take (length segments - 1) segments) ++ discard)%list "/")
            (URL_Query req))
      (fun p => ret (Ok (Some p)))
      (Nat.iter (length segments - k + 1) tick s).
Proof.
  revert segments discard s.
  induction fuel as [|fuel IH]; intros [|x segments] discard s Hlen Hk Hs Hhit Hmiss;
    try (simpl in *; lia).
  rewrite findRedirect_loop_turn. unfold bind at 1.
  rewrite Get_within by (apply always_within_ttl_now, Hs).
  assert (length (take (length (x :: segments) - 1) (x :: segments)) = length segments)
    as Hl by (rewrite length_take; simpl; lia).
  destruct (decide (k = length (x :: segments))) as [->|Hlt].
  - rewrite firstn_all in Hhit. rewrite Hhit.
    rewrite drop_ge by (rewrite Hl; simpl; lia).
    replace (length (x :: segments) - length (x :: segments) + 1)%nat with 1%nat by lia.
    reflexivity.
  - pose proof (Hmiss (length (x :: segments))) as Hall.
    rewrite firstn_all in Hall. rewrite Hall by (simpl in *; lia). cbv zeta. rewrite Hl.
    destruct (Z.ltb_spec (Z.of_nat (length segments) - 1) 0) as [Hneg|_];
      [simpl in *; lia|].
    destruct (take _ _ !! _) as [last|] eqn:Hlast.
    2:{ apply lookup_ge_None in Hlast. rewrite Hl in Hlast. simpl in *. lia. }
    set (segments' := take (length (x :: segments) - 1) (x :: segments)) in *.
    rewrite (IH segments' (last :: discard) (tick s)).
    + rewrite iter_tick_shift, Hl.
      replace (S (length segments - k + 1)) with (length (x :: segments) - k + 1)%nat
        by (simpl in *; lia).
      f_equal. f_equal. f_equal.
      assert (segments' = take (length segments - 1) segments' ++ [last])%list as Hsplit.
      { rewrite <- (take_drop (length segments - 1) segments') at 1. f_equal.
        replace (Z.to_nat (Z.of_nat (length segments) - 1)) with (length segments - 1)%nat
          in Hlast by lia.
        rewrite (drop_S _ _ _ Hlast), drop_ge; [reflexivity|rewrite Hl; lia]. }
      rewrite Hsplit at 2.
      rewrite drop_app_le by (rewrite length_take, Hl; simpl in Hk, Hlt; lia).
      rewrite <- app_assoc. reflexivity.
    + rewrite Hl. simpl in Hlen. lia.
    + rewrite Hl. simpl in Hk, Hlt. lia.
    + apply always_within_ttl_tick, Hs.
    + unfold segments'. rewrite take_take.
      replace (k `min` (length (x :: segments) - 1))%nat with k by (simpl in *; lia).
      exact Hhit.
    + intros j Hj. unfold segments'. rewrite take_take. rewrite Hl in Hj.
      replace (j `min` (length (x :: segments) - 1))%nat with j by (simpl; lia).
      apply Hmiss. simpl. lia.
Qed.

End Facts.

(** ** The resolver on the examples of the specification *)

Section Resolver.

#[local] Existing Instance Demo.lib.

(** C1.  A request that matches no shortcut at any prefix depth does not
    get the answer "no match": [findRedirect] never returns [(nil, nil)],
    for any library, request and state, because the loop indexes the
    emptied sequence at [-1] before it could test it.  On the sheet
    [a -> https://example.com], the paths [/nope] and [/] end in that
    panic. *)
Theorem findRedirect_no_match_panics :
  (forall (L : GoLib) (req : URL) (s : State),
      fst (findRedirect req s) <> Done (Ok None))
  /\ fst (findRedirect (Demo.request "/nope" "")
            (Demo.serving [[CString "a"; CString "https://example.com"]]))
     = Panicked "index out of range [-1]"
  /\ fst (findRedirect (Demo.request "/" "")
            (Demo.serving [[CString "a"; CString "https://example.com"]]))
     = Panicked "index out of range [-1]".
Proof.
  split; [|split; vm_compute; reflexivity].
  intros L req s. unfold findRedirect.
  apply findRedirect_loop_not_absent, Split_nonempty.
Qed.

(** C2.  Resolving [/a/b/c] on the sheet [a/b -> https://example.com/x]
    gives [https://example.com/x/b], not [https://example.com/x/c]: the
    segment pushed on the discarded suffix is the last one that is kept,
    not the one that was removed. *)
Theorem findRedirect_suffix_is_kept_segment :
  let r := findRedirect (Demo.request "/a/b/c" "")
             (Demo.serving [[CString "a/b"; CString "https://example.com/x"]]) in
  fst r = Done (Ok (Some 0%nat))
  /\ deref (snd r) (Some 0%nat) = Some (mkURL "https" "example.com" "/x/b" "" "")
  /\ deref (snd r) (Some 0%nat) <> Some (mkURL "https" "example.com" "/x/c" "" "").
Proof. vm_compute. repeat split; discriminate. Qed.

(** C3.  Resolving [/a/b] twice within the ttl on the sheet
    [a -> https://example.com/x] gives [https://example.com/x/a] and then
    [https://example.com/x/a/a]: the first resolution wrote into the URL
    the cache holds, with no refresh in between (one query in all, the
    same mapping, the same last update). *)
Theorem findRedirect_twice_differs :
  let s0 := Demo.serving [[CString "a"; CString "https://example.com/x"]] in
  let r1 := findRedirect (Demo.request "/a/b" "") s0 in
  let r2 := findRedirect (Demo.request "/a/b" "") (snd r1) in
  fst r1 = Done (Ok (Some 0%nat))
  /\ fst r2 = Done (Ok (Some 0%nat))
  /\ deref (snd r1) (c_v (cache (snd r1)) !! "a")
     = Some (mkURL "https" "example.com" "/x/a" "" "")
  /\ deref (snd r2) (c_v (cache (snd r2)) !! "a")
     = Some (mkURL "https" "example.com" "/x/a/a" "" "")
  /\ cache (snd r2) = cache (snd r1)
  /\ queries (world (snd r2)) = 1%nat.
Proof. vm_compute. repeat split. Qed.

(** C4.  The query of the request never reaches the result: for any
    library, [prepRedirect] does the same whatever [query] is, since it
    encodes a fresh [base.Query()] instead of the merged [qs].  Resolving
    [/a/b/c?q=1] on the sheet [a -> https://example.com] gives
    [https://example.com/a/b] with an empty query. *)
Theorem prepRedirect_drops_request_query :
  (forall (L : GoLib) (base : nat) (addPath : string) (query : Values) (s : State),
      prepRedirect base addPath query s = prepRedirect base addPath ∅ s)
  /\ let r := findRedirect (Demo.request "/a/b/c" "q=1")
                (Demo.serving [[CString "a"; CString "https://example.com"]]) in
     fst r = Done (Ok (Some 0%nat))
     /\ deref (snd r) (Some 0%nat) = Some (mkURL "https" "example.com" "/a/b" "" "").
Proof.
  split; [|vm_compute; repeat split].
  intros L base addPath query s.
  destruct (heap s !! base) as [u|] eqn:Hu.
  - now rewrite !(prepRedirect_spec _ _ _ _ _ Hu).
  - now rewrite !(prepRedirect_nil _ _ _ _ Hu).
Qed.

(** C10.  The request is looked up as it is written, while the keys are
    lowercased when the sheet is read: on the sheet [Go -> https://go.dev/]
    the mapping has the key [go], the request [/go] finds it, and the
    request [/Go] does not. *)
Theorem findRedirect_is_case_sensitive :
  let s0 := Demo.serving [[CString "Go"; CString "https://go.dev/"]] in
  fst (findRedirect (Demo.request "/go" "") s0) = Done (Ok (Some 0%nat))
  /\ c_v (cache (snd (findRedirect (Demo.request "/go" "") s0))) !! "go" = Some 0%nat
  /\ fst (findRedirect (Demo.request "/Go" "") s0) = Panicked "index out of range [-1]".
Proof. vm_compute. repeat split. Qed.

End Resolver.

(** ** The cache *)

Section Cache.

Context `{GoLib}.

(** C7.  Within the ttl, [Refresh] succeeds without a query and leaves the
    cache and the heap as they were (only the clock has been read); past
    the ttl it makes one query; so a call that refreshes, followed by a
    call within the ttl of that refresh, make one query together. *)
Theorem Refresh_ttl (s : State) :
  (within_ttl s ->
   Refresh s = (Done None, tick s)
   /\ cache (tick s) = cache s /\ heap (tick s) = heap s
   /\ queries (world (tick s)) = queries (world s))
  /\ (~ within_ttl s ->
      queries (world (snd (Refresh s))) = S (queries (world s))
      /\ (fst (Refresh s) = Done None -> within_ttl (snd (Refresh s)) ->
          fst (Refresh (snd (Refresh s))) = Done None
          /\ queries (world (snd (Refresh (snd (Refresh s))))) = S (queries (world s))
          /\ cache (snd (Refresh (snd (Refresh s)))) = cache (snd (Refresh s)))).
Proof.
  split.
  - intros Hin. rewrite Refresh_within by exact Hin. repeat split.
  - intros Hout. pose proof (Refresh_elapsed_queries s Hout) as Hq.
    split; [exact Hq|]. intros _ Hin.
    rewrite (Refresh_within _ Hin). simpl. repeat split. exact Hq.
Qed.

(** C8.  When the query made by [Refresh] returns an error, [Refresh]
    returns that error, and the cache (mapping, last update, ttl) and the
    URLs it points to are as before the call. *)
Theorem Refresh_error_leaves_cache (s : State) (e : error) :
  ~ within_ttl s ->
  fst (Query (c_sheet (cache s)) (tick s)) = Done (Err e) ->
  fst (Refresh s) = Done (Some e)
  /\ c_v (cache (snd (Refresh s))) = c_v (cache s)
  /\ c_lastUpdate (cache (snd (Refresh s))) = c_lastUpdate (cache s)
  /\ cache (snd (Refresh s)) = cache s
  /\ heap (snd (Refresh s)) = heap s.
Proof.
  intros Hout Hq. rewrite (Refresh_query_error s e Hout Hq). repeat split.
Qed.

(** C9.  [urlMap] returns a mapping for every sequence of rows; a valid
    row that no later valid row overrides has its lowercased shortcut
    mapped to its parsed destination; and every key of the mapping comes
    from a valid row. *)
Theorem urlMap_last_valid_row (rows : list Row) (s : State) :
  exists m : URLMap,
    fst (urlMap rows s) = Done m
    /\ cache (snd (urlMap rows s)) = cache s
    /\ (forall (i : nat) row k u,
          rows !! i = Some row -> valid_row row = Some (k, u) ->
          (forall (j : nat) row' u', (i < j)%nat -> rows !! j = Some row' ->
                                valid_row row' <> Some (k, u')) ->
          deref (snd (urlMap rows s)) (m !! k) = Some u)
    /\ (forall q, is_Some (m !! q) ->
          exists (i : nat) row u, rows !! i = Some row /\ valid_row row = Some (q, u)).
Proof.
  destruct (urlMap_inv rows s) as (m & news & Hrun & _ & Hlast & Hfrom).
  exists m. rewrite Hrun. simpl. split; [reflexivity|]. split; [reflexivity|]. split.
  - intros i row k u Hi Hv Hlater.
    destruct (Hlast i row k u Hi Hv Hlater) as (l & -> & Hu). exact Hu.
  - intros q [l Hl]. exact (Hfrom q l Hl).
Qed.

End Cache.

(** ** The cache and the provider on concrete states *)

Section CacheExamples.

#[local] Existing Instance Demo.lib.

Lemma Refresh_ttl_witness :
  let s0 := Demo.serving [[CString "go"; CString "https://go.dev/"]] in
  ~ within_ttl s0
  /\ fst (Refresh s0) = Done None
  /\ within_ttl (snd (Refresh s0))
  /\ Refresh (snd (Refresh s0)) = (Done None, tick (snd (Refresh s0)))
  /\ queries (world (snd (Refresh (snd (Refresh s0))))) = 1%nat.
Proof.
  intros s0.
  assert (~ within_ttl s0) as Hout by (vm_compute; congruence).
  assert (fst (Refresh s0) = Done None) as Hok by (vm_compute; reflexivity).
  assert (within_ttl (snd (Refresh s0))) as Hin by (vm_compute; congruence).
  destruct (Refresh_ttl s0) as [_ Hpast].
  destruct (Hpast Hout) as [_ Htwice].
  destruct (Htwice Hok Hin) as (_ & Hq & _).
  destruct (Refresh_ttl (snd (Refresh s0))) as [Hfresh _].
  destruct (Hfresh Hin) as (Hrun & _).
  repeat split; assumption.
Defined.

Lemma Refresh_error_leaves_cache_witness :
  ~ within_ttl Demo.unconfigured
  /\ fst (Query (c_sheet (cache Demo.unconfigured)) (tick Demo.unconfigured))
     = Done (Err "GOOGLE_SHEET_ID not set")
  /\ fst (Refresh Demo.unconfigured) = Done (Some "GOOGLE_SHEET_ID not set")
  /\ cache (snd (Refresh Demo.unconfigured)) = cache Demo.unconfigured
  /\ heap (snd (Refresh Demo.unconfigured)) = heap Demo.unconfigured.
Proof.
  assert (~ within_ttl Demo.unconfigured) as Hout by (vm_compute; congruence).
  assert (fst (Query (c_sheet (cache Demo.unconfigured)) (tick Demo.unconfigured))
          = Done (Err "GOOGLE_SHEET_ID not set")) as Hq by reflexivity.
  destruct (Refresh_error_leaves_cache Demo.unconfigured _ Hout Hq)
    as (Hr & _ & _ & Hc & Hh).
  repeat split; assumption.
Defined.

Lemma urlMap_last_valid_row_witness :
  let rows := [[CString "Go"; CString "https://go.dev/"];
               [CString "only one column"];
               [CString "GO"; CString "https://example.com/x"; CBool true];
               [CString "bad"; CString "://no scheme"];
               [CFloat64 7; CString "https://example.com"]] in
  let s0 := Demo.serving [] in
  exists m : URLMap,
    fst (urlMap rows s0) = Done m
    /\ deref (snd (urlMap rows s0)) (m !! "go")
       = Some (mkURL "https" "example.com" "/x" "" "").
Proof.
  intros rows s0.
  destruct (urlMap_last_valid_row rows s0) as (m & Hrun & _ & Hlast & _).
  exists m. split; [exact Hrun|].
  apply (Hlast 2%nat [CString "GO"; CString "https://example.com/x"; CBool true]).
  - reflexivity.
  - reflexivity.
  - intros j row' u' Hij Hj.
    destruct j as [|[|[|[|[|j]]]]]; try lia; simpl in Hj; inversion Hj; subst row';
      vm_compute; discriminate.
Defined.

(** C5.  A failure to fetch the sheet, and a failure of the token
    exchange, end the process inside [Query]: no error value comes back,
    and [Refresh] and the resolution of a request end with it. *)
Theorem Query_transient_error_exits (e : error) (c : cachedURLMap) (h : list URL)
    (clk : nat -> Z) (r q : nat) :
  let sheet := mkProvider "sheet" "Sheet1" in
  let net := mkWorld clk r
               (fun _ => mkAttempt None None None None None None None (Err e)) q in
  let auth := mkWorld clk r
                (fun _ => mkAttempt None None (Some "no token.json") None (Some e)
                            None None (Ok [])) q in
  fst (Query sheet (mkState c h net))
  = Exited ("Unable to retrieve data from sheet: " ++ e)
  /\ fst (Query sheet (mkState c h auth))
     = Exited ("Unable to retrieve token from web: " ++ e)
  /\ fst (Refresh (Demo.startup "sheet" "Sheet1" (Demo.failing Demo.today e)))
     = Exited ("Unable to retrieve data from sheet: " ++ e)
  /\ fst (findRedirect (Demo.request "/a" "")
            (Demo.startup "sheet" "Sheet1" (Demo.failing Demo.today e)))
     = Exited ("Unable to retrieve data from sheet: " ++ e).
Proof. repeat split. Qed.

End CacheExamples.

(** ** The provider and the clock *)

Section Provider.

Context `{GoLib}.

(** The only error values [Query] returns are the two configuration
    errors, the identifier being tested before the name and both before
    anything outside is asked. *)
Theorem Query_error_is_configuration (p : sheetsProvider) (s : State) (e : error) :
  fst (Query p s) = Done (Err e)
  <-> (googleSheetsID p = "" /\ e = "GOOGLE_SHEET_ID not set")
      \/ (googleSheetsID p <> "" /\ sheetName p = "" /\ e = "SHEET_NAME not set").
Proof.
  unfold Query, getClient, getTokenFromWeb, saveToken. run.
  destruct (String.eqb_spec (googleSheetsID p) "") as [Hid|Hid]; simpl.
  { split.
    - intros Hq. inversion Hq. now left.
    - intros [[_ ->]|[Hne _]]; [reflexivity|contradiction]. }
  destruct (String.eqb_spec (sheetName p) "") as [Hname|Hname]; simpl.
  { split.
    - intros Hq. inversion Hq. right. repeat split; assumption.
    - intros [[Heq _]|(_ & _ & ->)]; [contradiction|reflexivity]. }
  split.
  - repeat (match goal with
            | |- context [match ?o with Some _ => _ | None => _ end] => destruct o
            | |- context [match ?o with Ok _ => _ | Err _ => _ end] => destruct o
            end; simpl); discriminate.
  - intros [[Heq _]|(_ & Heq & _)]; contradiction.
Qed.

(** [getClient] returns exactly when the saved token can be read, or when
    the authorization code is read, exchanged and the token saved;
    otherwise it ends the process.  With a readable token the web flow is
    not entered. *)
Theorem getClient_returns_iff (a : Attempt) (s : State) :
  (getClient a s = (Done tt, s)
   <-> at_tokenFromFile a = None
       \/ (at_scanAuthCode a = None /\ at_exchange a = None
           /\ at_openTokenFile a = None))
  /\ (forall msg, fst (getClient a s) <> Panicked msg)
  /\ (forall r, fst (getClient a s) = Done r -> snd (getClient a s) = s).
Proof.
  unfold getClient, getTokenFromWeb, saveToken. run.
  destruct (at_tokenFromFile a), (at_scanAuthCode a), (at_exchange a),
    (at_openTokenFile a); simpl;
    (split; [split; [try discriminate; intros _; tauto
                    |intros [?|(? & ? & ?)]; try discriminate; reflexivity]
            |split; [discriminate|reflexivity]]).
Qed.

(** [Query] returns rows exactly when both names are set and every call
    to the outside succeeds, and the rows are then the values of the sheet
    as fetched. *)
Theorem Query_rows_iff (p : sheetsProvider) (s : State) (rows : list Row) :
  let a := attempts (world s) (queries (world s)) in
  fst (Query p s) = Done (Ok rows)
  <-> googleSheetsID p <> "" /\ sheetName p <> ""
      /\ at_readCredentials a = None /\ at_configFromJSON a = None
      /\ (at_tokenFromFile a = None
          \/ (at_scanAuthCode a = None /\ at_exchange a = None
              /\ at_openTokenFile a = None))
      /\ at_newService a = None
      /\ at_valuesGet a = Ok rows.
Proof.
  unfold Query, getClient, getTokenFromWeb, saveToken. run.
  destruct (String.eqb_spec (googleSheetsID p) "") as [Hid|Hid]; simpl.
  { split; [discriminate|tauto]. }
  destruct (String.eqb_spec (sheetName p) "") as [Hname|Hname]; simpl.
  { split; [discriminate|tauto]. }
  destruct (at_readCredentials _), (at_configFromJSON _), (at_tokenFromFile _),
    (at_scanAuthCode _), (at_exchange _), (at_openTokenFile _), (at_newService _),
    (at_valuesGet _) as [values|err]; simpl;
    (split;
     [try discriminate; intros Hq; inversion Hq; subst; tauto
     |intros (_ & _ & ? & ? & Htok & ? & Hv); try discriminate;
      try (destruct Htok as [?|(? & ? & ?)]; discriminate);
      inversion Hv; reflexivity]).
Qed.

(** For a ttl that is a [Duration] below the largest one, the test of
    [Refresh] is the plain comparison of [now - lastUpdate] with the ttl;
    with the largest [Duration] as ttl, the saturating difference never
    exceeds it and the cache is never refreshed. *)
Theorem within_ttl_plain (s : State) :
  let now := clock (world s) (reads (world s)) in
  (minDuration <= c_ttl (cache s) < maxDuration ->
   (within_ttl s <-> now - c_lastUpdate (cache s) <= c_ttl (cache s)))
  /\ (maxDuration <= c_ttl (cache s) -> within_ttl s).
Proof.
  unfold within_ttl, since_lastUpdate, Time_Sub, minDuration, maxDuration. simpl.
  split; intros; lia.
Qed.

End Provider.

(** ** The mapping built from the sheet *)

Section Mapping.

Context `{GoLib}.

(** What [urlMap] allocates, and where its pointers go: the pointer of a
    key is the cell of a contribution with that key. *)
Lemma urlMap_trace (rows : list Row) (s : State) :
  exists m : URLMap,
    urlMap rows s
    = (Done m, mkState (cache s) (heap s ++ (contributions rows).*2)%list (world s))
    /\ forall k l, m !! k = Some l ->
         (length (heap s) <= l)%nat
         /\ exists u, contributions rows !! (l - length (heap s))%nat = Some (k, u).
Proof.
  unfold urlMap, contributions. induction rows as [|r rows IH] using rev_ind.
  - exists ∅. simpl. rewrite app_nil_r. destruct s; simpl.
    split; [reflexivity|]. intros k l Hk. simplify_map_eq.
  - destruct IH as (m & Hrun & Hptr).
    rewrite range_fold_app, (bind_Done _ _ _ _ _ Hrun). simpl.
    unfold bind. rewrite urlMap_row_spec. simpl.
    rewrite omap_app. simpl. destruct (valid_row r) as [[k0 u0]|] eqn:Hr; simpl.
    + exists (<[k0 := length (heap s ++ (omap valid_row rows).*2)%list]> m).
      rewrite fmap_app, app_assoc. split; [reflexivity|].
      intros k l Hk. destruct (decide (k0 = k)) as [->|Hne].
      * rewrite lookup_insert_eq in Hk. inversion Hk; subst l.
        rewrite length_app, length_fmap. split; [lia|]. exists u0.
        replace (length (heap s) + length (omap valid_row rows) - length (heap s))%nat
          with (length (omap valid_row rows)) by lia.
        apply list_lookup_middle. reflexivity.
      * rewrite lookup_insert_ne in Hk by done.
        destruct (Hptr k l Hk) as (Hge & u & Hu). split; [exact Hge|].
        exists u. apply lookup_app_l_Some. exact Hu.
    + exists m. rewrite app_nil_r. split; [reflexivity|exact Hptr].
Qed.

(** [urlMap] allocates one URL for every valid row, in the order of the
    rows and also for a row that a later one overrides; it returns for
    every input and touches neither the cache nor the world nor the URLs
    that were allocated before. *)
Theorem urlMap_allocates (rows : list Row) (s : State) :
  snd (urlMap rows s)
  = mkState (cache s) (heap s ++ (contributions rows).*2)%list (world s)
  /\ (exists m, fst (urlMap rows s) = Done m)
  /\ forall l u, heap s !! l = Some u -> heap (snd (urlMap rows s)) !! l = Some u.
Proof.
  destruct (urlMap_trace rows s) as (m & Hrun & _). rewrite Hrun. simpl.
  split; [reflexivity|]. split; [now exists m|].
  intros l u Hl. now apply lookup_app_l_Some.
Qed.

(** No two keys of the mapping share their URL, and no key points to a URL
    that was allocated before the call: writing through the pointer of one
    shortcut reaches no other shortcut. *)
Theorem urlMap_no_aliasing (rows : list Row) (s : State) :
  exists m : URLMap,
    fst (urlMap rows s) = Done m
    /\ (forall k1 k2 l, m !! k1 = Some l -> m !! k2 = Some l -> k1 = k2)
    /\ (forall k l, m !! k = Some l ->
          (length (heap s) <= l < length (heap (snd (urlMap rows s))))%nat).
Proof.
  destruct (urlMap_trace rows s) as (m & Hrun & Hptr). exists m. rewrite Hrun. simpl.
  split; [reflexivity|]. split.
  - intros k1 k2 l H1 H2.
    destruct (Hptr k1 l H1) as (_ & u1 & Hu1), (Hptr k2 l H2) as (_ & u2 & Hu2).
    rewrite Hu1 in Hu2. now inversion Hu2.
  - intros k l Hk. destruct (Hptr k l Hk) as (Hge & u & Hu).
    apply lookup_lt_Some in Hu. rewrite length_app, length_fmap. lia.
Qed.

Lemma valid_row_take (row : Row) : valid_row (take 2 row) = valid_row row.
Proof. destruct row as [|c0 [|c1 row]]; reflexivity. Qed.

Lemma range_fold_urlMap_row_filter (rows : list Row) (out : URLMap) (s : State) :
  range_fold urlMap_row (filter (fun r => is_Some (valid_row r)) rows) out s
  = range_fold urlMap_row rows out s.
Proof.
  revert out s. induction rows as [|r rows IH]; intros out s; [reflexivity|].
  rewrite filter_cons. destruct (decide (is_Some (valid_row r))) as [Hv|Hv]; simpl.
  - unfold bind. destruct (urlMap_row out r s) as [[out'|msg|msg] s1]; [apply IH|done..].
  - unfold bind. rewrite urlMap_row_spec.
    destruct (valid_row r) as [kv|]; [exfalso; apply Hv; eauto|apply IH].
Qed.

Lemma range_fold_urlMap_row_take (rows : list Row) (out : URLMap) (s : State) :
  range_fold urlMap_row (take 2 <$> rows) out s = range_fold urlMap_row rows out s.
Proof.
  revert out s. induction rows as [|r rows IH]; intros out s; [reflexivity|].
  simpl. unfold bind. rewrite !urlMap_row_spec, valid_row_take.
  destruct (valid_row r) as [[k u]|]; apply IH.
Qed.

(** The result of [urlMap] depends on the valid rows only, and on their
    first two columns only: removing the rows that fail a check, or the
    columns after the second, changes neither the mapping nor the heap. *)
Theorem urlMap_reads_valid_rows (rows : list Row) (s : State) :
  urlMap (filter (fun r => is_Some (valid_row r)) rows) s = urlMap rows s
  /\ urlMap (take 2 <$> rows) s = urlMap rows s.
Proof.
  unfold urlMap. split.
  - apply range_fold_urlMap_row_filter.
  - apply range_fold_urlMap_row_take.
Qed.

End Mapping.

(** ** The cache across a refresh *)

Section Refreshing.

Context `{GoLib}.

Lemma Query_error_cases (p : sheetsProvider) (s : State) (e : error) :
  fst (Query p s) = Done (Err e) ->
  e = "GOOGLE_SHEET_ID not set" \/ e = "SHEET_NAME not set".
Proof.
  unfold Query, getClient, getTokenFromWeb, saveToken. run.
  repeat (match goal with
          | |- context [if ?b then _ else _] => destruct b
          | |- context [match ?o with Some _ => _ | None => _ end] => destruct o
          | |- context [match ?o with Ok _ => _ | Err _ => _ end] => destruct o
          end; simpl); intros Hq; inversion Hq; tauto.
Qed.

(** [Get] is [Refresh] followed by a read of the mapping. *)
Lemma Get_unfold (query : string) (s : State) :
  Get query s =
  match Refresh s with
  | (Done None, s1) => (Done (Ok (c_v (cache s1) !! query)), s1)
  | (Done (Some err), s1) => (Done (Err err), s1)
  | (Panicked msg, s1) => (Panicked msg, s1)
  | (Exited msg, s1) => (Exited msg, s1)
  end.
Proof. unfold Get, bind. destruct (Refresh s) as [[[err|]|msg|msg] s1]; reflexivity. Qed.

(** A refresh that goes through, step by step. *)
Lemma Refresh_success (s : State) (rows : list Row) (m : URLMap) :
  ~ within_ttl s ->
  fst (Query (c_sheet (cache s)) (tick s)) = Done (Ok rows) ->
  fst (urlMap rows (asked (tick s))) = Done m ->
  Refresh s
  = (Done None,
     mkState (mkCache m (clock (world s) (S (reads (world s))))
                (c_ttl (cache s)) (c_sheet (cache s)))
       (heap s ++ (contributions rows).*2)%list
       (mkWorld (clock (world s)) (S (S (reads (world s)))) (attempts (world s))
          (S (queries (world s))))).
Proof.
  intros Hout Hq Hm. rewrite Refresh_elapsed by exact Hout. unfold bind at 1.
  pose proof (Query_state (c_sheet (cache s)) (tick s)) as Hs.
  destruct (Query (c_sheet (cache s)) (tick s)) as [o s1]. simpl in Hq, Hs. subst o s1.
  unfold bind at 1. destruct (urlMap_trace rows (asked (tick s))) as (m' & Hrun & _).
  rewrite Hrun in Hm |- *. simpl in Hm. inversion Hm; subst m'. reflexivity.
Qed.

(** A refresh that goes through replaces the mapping by the one built from
    the rows just fetched, sets the last update to a reading of the clock
    taken after the fetch, keeps the ttl and the provider, and leaves the
    URLs of the old mapping on the heap. *)
Theorem Refresh_replaces_mapping (s : State) (rows : list Row) :
  ~ within_ttl s ->
  fst (Query (c_sheet (cache s)) (tick s)) = Done (Ok rows) ->
  fst (Refresh s) = Done None
  /\ Done (c_v (cache (snd (Refresh s)))) = fst (urlMap rows (asked (tick s)))
  /\ c_lastUpdate (cache (snd (Refresh s))) = clock (world s) (S (reads (world s)))
  /\ c_ttl (cache (snd (Refresh s))) = c_ttl (cache s)
  /\ c_sheet (cache (snd (Refresh s))) = c_sheet (cache s)
  /\ heap (snd (Refresh s)) = (heap s ++ (contributions rows).*2)%list
  /\ reads (world (snd (Refresh s))) = S (S (reads (world s)))
  /\ queries (world (snd (Refresh s))) = S (queries (world s)).
Proof.
  intros Hout Hq.
  destruct (urlMap_trace rows (asked (tick s))) as (m & Hrun & _).
  assert (fst (urlMap rows (asked (tick s))) = Done m) as Hm by now rewrite Hrun.
  rewrite (Refresh_success s rows m Hout Hq Hm), Hm. repeat split.
Qed.

(** Once the ttl has passed and the sheet is fetched, [Get] answers from
    the new rows alone: the shortcut of a valid row that no later valid row
    overrides gives a pointer to its parsed destination, and a key that no
    valid row has gives [nil] without an error, whatever the mapping held
    before. *)
Theorem Get_after_expiry (s : State) (rows : list Row) :
  ~ within_ttl s ->
  fst (Query (c_sheet (cache s)) (tick s)) = Done (Ok rows) ->
  (forall (i : nat) row k u,
      rows !! i = Some row -> valid_row row = Some (k, u) ->
      (forall (j : nat) row' u', (i < j)%nat -> rows !! j = Some row' ->
                            valid_row row' <> Some (k, u')) ->
      exists l, fst (Get k s) = Done (Ok (Some l))
                /\ heap (snd (Get k s)) !! l = Some u)
  /\ (forall q,
        (forall (i : nat) row u, rows !! i = Some row -> valid_row row <> Some (q, u)) ->
        fst (Get q s) = Done (Ok None)).
Proof.
  intros Hout Hq.
  destruct (urlMap_inv rows (asked (tick s))) as (m & news & Hrun & _ & Hlast & Hfrom).
  assert (fst (urlMap rows (asked (tick s))) = Done m) as Hm by now rewrite Hrun.
  pose proof (Refresh_success s rows m Hout Hq Hm) as Hr.
  destruct (urlMap_trace rows (asked (tick s))) as (m' & Hrun' & _).
  rewrite Hrun in Hrun'. inversion Hrun' as [[Hmm Hheap]].
  apply app_inv_head in Hheap. split.
  - intros i row k u Hi Hv Hlater.
    destruct (Hlast i row k u Hi Hv Hlater) as (l & Hl & Hu).
    exists l. rewrite Get_unfold, Hr. simpl. rewrite Hl. split; [reflexivity|].
    rewrite <- Hheap. exact Hu.
  - intros q Hnone. rewrite Get_unfold, Hr. simpl.
    destruct (m !! q) as [l|] eqn:Hl; [|reflexivity].
    destruct (Hfrom q l Hl) as (i & row & u & Hi & Hv).
    exfalso. exact (Hnone i row u Hi Hv).
Qed.

(** Within the ttl, [Get] answers from the stored mapping without a query:
    a key that is absent (also in the [nil] mapping of a cache never
    refreshed) gives [nil] and no error, the cache and the heap are as
    before, and the clock has been read once. *)
Theorem Get_between_refreshes (query : string) (s : State) :
  within_ttl s ->
  Get query s = (Done (Ok (c_v (cache s) !! query)), tick s)
  /\ (c_v (cache s) !! query = None -> fst (Get query s) = Done (Ok None))
  /\ (c_v (cache s) = ∅ -> fst (Get query s) = Done (Ok None))
  /\ queries (world (snd (Get query s))) = queries (world s)
  /\ cache (snd (Get query s)) = cache s /\ heap (snd (Get query s)) = heap s.
Proof.
  intros Hin. rewrite Get_unfold, Refresh_within by exact Hin. simpl.
  repeat split.
  - now intros ->.
  - intros ->. reflexivity.
Qed.

End Refreshing.

(** ** Facts about the string functions *)

Lemma Join_cons (e : string) (es : list string) (sep : string) :
  es <> [] -> Strings.Join (e :: es) sep = e ++ sep ++ Strings.Join es sep.
Proof. destruct es; [contradiction|reflexivity]. Qed.

(** Joining what was split gives the string back. *)
Lemma Join_Split (s : string) (sep : ascii) :
  Strings.Join (Strings.Split s sep) (String sep "") = s.
Proof.
  induction s as [|c s IH]; [reflexivity|]. cbn [Strings.Split].
  destruct (Ascii.eqb_spec c sep) as [->|Hne].
  - rewrite Join_cons by apply Split_nonempty. rewrite IH. reflexivity.
  - destruct (Strings.Split s sep) as [|h t] eqn:Hs; [now apply Split_nonempty in Hs|].
    destruct t as [|h' t]; simpl in *; now rewrite <- IH.
Qed.

Lemma substring_all (s : string) : String.substring 0 (String.length s) s = s.
Proof. induction s as [|c s IH]; simpl; [reflexivity|now rewrite IH]. Qed.

(** One leading slash is removed, and only one. *)
Lemma TrimPrefix_slash (p : string) : Strings.TrimPrefix (String "/" p) "/" = p.
Proof.
  unfold Strings.TrimPrefix.
  replace (String.prefix "/" (String "/" p)) with true by (now destruct p).
  replace (String.length (String "/" p) - String.length "/")%nat
    with (String.length p) by (simpl; lia).
  change (String.substring (String.length "/") (String.length p) (String "/" p))
    with (String.substring 0 (String.length p) p).
  apply substring_all.
Qed.

Lemma TrimPrefix_no_slash (p : string) :
  String.prefix "/" p = false -> Strings.TrimPrefix p "/" = p.
Proof. unfold Strings.TrimPrefix. now intros ->. Qed.

(** [HasSuffix s "/"] tests the last byte of [s]. *)
Lemma HasSuffix_slash (s : string) :
  Strings.HasSuffix s "/" = true <-> exists p, s = p ++ "/".
Proof.
  unfold Strings.HasSuffix. induction s as [|c s IH].
  - simpl. split; [discriminate|]. intros [[|c p] Hp]; discriminate.
  - destruct s as [|c' s].
    + simpl. destruct (Ascii.eqb_spec c "/") as [->|Hne]; simpl.
      * split; [intros _; now exists ""|reflexivity].
      * split; [discriminate|]. intros [[|a [|b p]] Hp]; simpl in Hp; inversion Hp.
        contradiction.
    + change (String.length (String c (String c' s))) with (S (String.length (String c' s))).
      change (String.length "/") with 1%nat in *.
      replace (S (String.length (String c' s)) - 1)%nat
        with (S (String.length (String c' s) - 1)) by (simpl; lia).
      change (String.substring (S ?n) 1 (String c ?t)) with (String.substring n 1 t).
      replace (1 <=? S (String.length (String c' s)))%nat with true by reflexivity.
      replace (1 <=? String.length (String c' s))%nat with true in IH by reflexivity.
      rewrite IH. split.
      * intros [p ->]. now exists (String c p).
      * intros [[|a p] Hp]; simpl in Hp; inversion Hp. now exists p.
Qed.

(** ** Resolution *)

Section Resolution.

Context `{GoLib}.

(** [prepRedirect] on an allocated pointer returns that pointer and writes
    one cell of the heap, of which it changes the path and the query only:
    the path gets [addPath] appended, after one slash unless it ends with
    one or [addPath] is empty, and the query is the base's own query parsed
    and encoded again.  The cache, the world and every other URL stay. *)
Theorem prepRedirect_effect (base : nat) (addPath : string) (query : Values)
    (s : State) (u : URL) :
  heap s !! base = Some u ->
  let r := prepRedirect base addPath query s in
  fst r = Done base
  /\ cache (snd r) = cache s /\ world (snd r) = world s
  /\ length (heap (snd r)) = length (heap s)
  /\ (forall l : nat, l <> base -> heap (snd r) !! l = heap s !! l)
  /\ exists u',
       heap (snd r) !! base = Some u'
       /\ Scheme u' = Scheme u /\ Host u' = Host u /\ Fragment u' = Fragment u
       /\ RawQuery u' = Values_Encode (url_ParseQuery (RawQuery u))
       /\ Path u' = (if String.eqb addPath "" then Path u
                     else if Strings.HasSuffix (Path u) "/" then Path u ++ addPath
                          else (Path u ++ "/") ++ addPath).
Proof.
  intros Hu r. subst r. rewrite (prepRedirect_spec _ _ _ _ _ Hu). simpl.
  pose proof (lookup_lt_Some _ _ _ Hu) as Hlt.
  split; [reflexivity|]. split; [reflexivity|]. split; [reflexivity|].
  split; [apply length_insert|]. split.
  - intros l Hl. now apply list_lookup_insert_ne.
  - exists (redirected u addPath). split; [now apply list_lookup_insert_eq|].
    unfold redirected, URL_Query.
    destruct (String.eqb addPath ""); simpl; [repeat split|].
    destruct (Strings.HasSuffix (Path u) "/"); simpl; repeat split.
Qed.

(** *** Well-formed states *)

Lemma Refresh_well_formed (s : State) :
  well_formed s -> well_formed (snd (Refresh s)).
Proof.
  intros Hwf. destruct (decide (within_ttl s)) as [Hin|Hout].
  { rewrite Refresh_within by exact Hin. exact Hwf. }
  rewrite Refresh_elapsed by exact Hout. unfold bind at 1.
  pose proof (Query_state (c_sheet (cache s)) (tick s)) as Hs.
  destruct (Query (c_sheet (cache s)) (tick s)) as [[[rows|err]|msg|msg] s1];
    simpl in Hs; subst s1; try exact Hwf.
  destruct (urlMap_inv rows (asked (tick s))) as (m & news & Hrun & Hbound & _).
  unfold bind at 1. rewrite Hrun. simpl. exact Hbound.
Qed.

Lemma Get_well_formed (query : string) (s : State) :
  well_formed s ->
  well_formed (snd (Get query s))
  /\ forall l, fst (Get query s) = Done (Ok (Some l)) ->
               (l < length (heap (snd (Get query s))))%nat.
Proof.
  intros Hwf. pose proof (Refresh_well_formed s Hwf) as Hwf'.
  rewrite Get_unfold. destruct (Refresh s) as [[[err|]|msg|msg] s1]; simpl in *;
    (split; [exact Hwf'|]); intros l Hl; inversion Hl.
  eapply Hwf'. eassumption.
Qed.

Lemma Get_error_cases (query : string) (s : State) (e : error) :
  fst (Get query s) = Done (Err e) ->
  e = "GOOGLE_SHEET_ID not set" \/ e = "SHEET_NAME not set".
Proof.
  rewrite Get_unfold. intros Hg.
  destruct (Refresh s) as [[[err|]|msg|msg] s1] eqn:Hr; simpl in Hg; inversion Hg; subst.
  assert (fst (Refresh s) = Done (Some e)) as Hr' by now rewrite Hr.
  destruct (Refresh_error_inv s e Hr') as (_ & Hq & _).
  exact (Query_error_cases _ _ _ Hq).
Qed.

(** What the loop can end in, from a well-formed state. *)
Lemma findRedirect_loop_outcome (fuel : nat) (req : URL)
    (segments discard : list string) (s s' : State) (o : Outcome (result (option nat))) :
  well_formed s -> segments <> [] -> (length segments <= fuel)%nat ->
  findRedirect_loop fuel req segments discard s = (o, s') ->
  well_formed s'
  /\ match o with
     | Done (Ok (Some p)) => is_Some (heap s' !! p)
     | Done (Ok None) => False
     | Done (Err e) => e = "GOOGLE_SHEET_ID not set" \/ e = "SHEET_NAME not set"
     | Panicked msg => msg = "index out of range [-1]"
     | Exited _ => True
     end.
Proof.
  revert segments discard s.
  induction fuel as [|fuel IH]; intros [|x segments] discard s Hwf Hne Hlen Hrun;
    try contradiction; [simpl in Hlen; lia|].
  rewrite findRedirect_loop_turn in Hrun. unfold bind at 1 in Hrun.
  destruct (Get_well_formed (Strings.Join (x :: segments) "/") s Hwf) as [Hwf1 Hptr].
  pose proof (Get_error_cases (Strings.Join (x :: segments) "/") s) as Herr.
  pose proof (Get_no_panic (Strings.Join (x :: segments) "/") s) as Hnp.
  destruct (Get _ s) as [[[[v|]|err]|msg|msg] s1]; simpl in Hwf1, Hptr, Herr, Hnp.
  - specialize (Hptr v eq_refl).
    destruct (lookup_lt_is_Some_2 _ _ Hptr) as [u Hu].
    unfold bind in Hrun. rewrite (prepRedirect_spec _ _ _ _ _ Hu) in Hrun.
    simpl in Hrun. inversion Hrun; subst o s'. simpl. split.
    + intros q l Hq. simpl in *. rewrite length_insert. exact (Hwf1 q l Hq).
    + rewrite list_lookup_insert_eq by exact Hptr. eauto.
  - cbv zeta in Hrun.
    assert (length (take (length (x :: segments) - 1) (x :: segments)) = length segments)
      as Hl by (rewrite length_take; simpl; lia).
    rewrite Hl in Hrun.
    destruct (Z.ltb_spec (Z.of_nat (length segments) - 1) 0) as [Hneg|Hpos].
    { inversion Hrun; subst o s'. split; [exact Hwf1|reflexivity]. }
    destruct (take _ _ !! _) as [last|] eqn:Hlast.
    + apply (IH _ _ _ Hwf1) in Hrun; [exact Hrun| |rewrite Hl; simpl in Hlen; lia].
      intros Hnil. rewrite Hnil in Hlast. discriminate.
    + apply lookup_ge_None in Hlast. rewrite Hl in Hlast. lia.
  - inversion Hrun; subst o s'. split; [exact Hwf1|]. now apply Herr.
  - exfalso. now apply (Hnp msg).
  - inversion Hrun; subst o s'. split; [exact Hwf1|exact I].
Qed.

(** From a state in which every pointer of the mapping is allocated,
    [findRedirect] ends in one of four ways: a pointer to an allocated URL,
    one of the two configuration errors, the panic on the index [-1], or
    the end of the process; it never returns [(nil, nil)] and never
    dereferences [nil].  The state it leaves is well-formed again, also
    across the refreshes its lookups make. *)
Theorem findRedirect_outcomes (req : URL) (s : State) :
  well_formed s ->
  well_formed (snd (findRedirect req s))
  /\ match fst (findRedirect req s) with
     | Done (Ok (Some p)) => is_Some (heap (snd (findRedirect req s)) !! p)
     | Done (Ok None) => False
     | Done (Err e) => e = "GOOGLE_SHEET_ID not set" \/ e = "SHEET_NAME not set"
     | Panicked msg => msg = "index out of range [-1]"
     | Exited _ => True
     end.
Proof.
  intros Hwf. unfold findRedirect.
  destruct (findRedirect_loop _ req _ [] s) as [o s'] eqn:Hrun. simpl.
  apply (findRedirect_loop_outcome _ _ _ _ _ _ _ Hwf (Split_nonempty _ _)
           (Nat.le_refl _) Hrun).
Qed.

(** [Refresh] and [Get] keep every pointer of the mapping allocated, and a
    pointer [Get] returns is allocated; the empty cache of a server that
    starts is well-formed. *)
Theorem cache_keeps_pointers_allocated (query : string) (s : State) :
  well_formed s ->
  well_formed (snd (Refresh s))
  /\ well_formed (snd (Get query s))
  /\ (forall l, fst (Get query s) = Done (Ok (Some l)) ->
                is_Some (heap (snd (Get query s)) !! l))
  /\ (forall id name w, well_formed (Demo.startup id name w)).
Proof.
  intros Hwf. destruct (Get_well_formed query s Hwf) as [Hg Hl].
  split; [now apply Refresh_well_formed|]. split; [exact Hg|]. split.
  - intros l Hgl. apply lookup_lt_is_Some_2. now apply Hl.
  - intros id name w q l Hq. simpl in Hq. simplify_map_eq.
Qed.

(** *** Between two refreshes *)

Lemma heap_iter_tick (n : nat) (s : State) : heap (Nat.iter n tick s) = heap s.
Proof. induction n as [|n IH]; simpl; [reflexivity|exact IH]. Qed.

Lemma world_iter_tick (n : nat) (s : State) :
  world (Nat.iter n tick s)
  = mkWorld (clock (world s)) (n + reads (world s)) (attempts (world s))
      (queries (world s)).
Proof.
  induction n as [|n IH]; simpl; [now destruct (world s)|]. now rewrite IH.
Qed.

(** Between two refreshes, [findRedirect] returns the pointer of the
    deepest prefix of the path that is a key, after one lookup for every
    deeper prefix, without a query and without a change to the cache.  The
    path it appends to the destination is made of the segments from the
    last one of the shortcut up to the one before the last of the
    request. *)
Theorem findRedirect_longest_prefix (req : URL) (s : State) (k v : nat) (u : URL) :
  let segments := segments_of req in
  let n := length segments in
  let addPath := Strings.Join (drop (k - 1) (take (n - 1) segments)) "/" in
  always_within_ttl s ->
  (1 <= k <= n)%nat ->
  c_v (cache s) !! Strings.Join (take k segments) "/" = Some v ->
  (forall j : nat, (k < j <= n)%nat ->
              c_v (cache s) !! Strings.Join (take j segments) "/" = None) ->
  heap s !! v = Some u ->
  fst (findRedirect req s) = Done (Ok (Some v))
  /\ cache (snd (findRedirect req s)) = cache s
  /\ heap (snd (findRedirect req s)) = <[v := redirected u addPath]> (heap s)
  /\ queries (world (snd (findRedirect req s))) = queries (world s)
  /\ reads (world (snd (findRedirect req s))) = (n - k + 1 + reads (world s))%nat.
Proof.
  intros segments n addPath Hs Hk Hhit Hmiss Hu.
  unfold findRedirect. fold (segments_of req). fold segments. fold n.
  rewrite (findRedirect_loop_match n req segments [] s k v (Nat.le_refl _) Hk Hs Hhit Hmiss).
  rewrite app_nil_r. fold n. fold addPath. unfold bind.
  rewrite (prepRedirect_spec v addPath (URL_Query req) _ u)
    by (rewrite heap_iter_tick; exact Hu).
  simpl. rewrite cache_iter_tick, heap_iter_tick, world_iter_tick. repeat split.
Qed.

(** Between two refreshes, a request whose path, without its leading slash,
    is a key resolves to the pointer of that key after a single lookup, and
    the path of the destination is left as it is. *)
Theorem findRedirect_exact_match (req : URL) (s : State) (v : nat) (u : URL) :
  always_within_ttl s ->
  c_v (cache s) !! Strings.TrimPrefix (Path req) "/" = Some v ->
  heap s !! v = Some u ->
  findRedirect req s
  = (Done (Ok (Some v)),
     mkState (cache s)
       (<[v := set_RawQuery (Values_Encode (url_ParseQuery (RawQuery u))) u]> (heap s))
       (world (tick s))).
Proof.
  intros Hs Hhit Hu. unfold findRedirect.
  set (segments := Strings.Split (Strings.TrimPrefix (Path req) "/") "/").
  assert (segments <> []) as Hne by apply Split_nonempty.
  assert (1 <= length segments)%nat as Hlen
      by (destruct segments; [contradiction|simpl; lia]).
  rewrite (findRedirect_loop_match _ req segments [] s (length segments) v).
  - rewrite Nat.sub_diag, drop_ge by (rewrite length_take; lia).
    replace (length segments - length segments + 1)%nat with 1%nat by lia.
    simpl. unfold bind. rewrite (prepRedirect_spec v "" (URL_Query req) (tick s) u Hu).
    reflexivity.
  - lia.
  - lia.
  - exact Hs.
  - rewrite firstn_all. unfold segments. rewrite Join_Split. exact Hhit.
  - intros j Hj. lia.
Qed.

(** When the refresh of the first lookup fails, [findRedirect] returns that
    error at once and no URL: one query was made, and the cache and the
    heap are as before. *)
Theorem findRedirect_cache_error (req : URL) (s : State) (e : error) :
  fst (Refresh s) = Done (Some e) ->
  findRedirect req s = (Done (Err e), asked (tick s)).
Proof.
  intros Hr. destruct (Refresh_error_inv s e Hr) as (_ & _ & Hs).
  unfold findRedirect.
  destruct (Strings.Split _ _) as [|x segments] eqn:Hsplit;
    [now apply Split_nonempty in Hsplit|].
  change (length (x :: segments)) with (S (length segments)).
  rewrite findRedirect_loop_turn. unfold bind. rewrite Get_unfold.
  destruct (Refresh s) as [o s1]. simpl in Hr, Hs. subst o s1. reflexivity.
Qed.

Lemma findRedirect_loop_frame (fuel : nat) (req : URL)
    (segments discard : list string) (s s' : State) (o : Outcome (result (option nat))) :
  always_within_ttl s ->
  findRedirect_loop fuel req segments discard s = (o, s') ->
  cache s' = cache s
  /\ queries (world s') = queries (world s)
  /\ length (heap s') = length (heap s)
  /\ match o with
     | Done (Ok (Some p)) => forall l : nat, l <> p -> heap s' !! l = heap s !! l
     | _ => heap s' = heap s
     end.
Proof.
  revert segments discard s.
  induction fuel as [|fuel IH]; intros [|x segments] discard s Hs Hrun;
    try (inversion Hrun; subst; repeat split; fail).
  rewrite findRedirect_loop_turn in Hrun. unfold bind at 1 in Hrun.
  rewrite Get_within in Hrun by (apply always_within_ttl_now, Hs).
  destruct (c_v (cache s) !! _) as [v|].
  - unfold bind in Hrun. destruct (heap s !! v) as [u|] eqn:Hu.
    + rewrite (prepRedirect_spec v _ _ (tick s) u Hu) in Hrun.
      inversion Hrun; subst o s'. simpl. repeat split.
      * apply length_insert.
      * intros l Hl. now apply list_lookup_insert_ne.
    + rewrite (prepRedirect_nil v _ _ (tick s) Hu) in Hrun.
      inversion Hrun; subst o s'. repeat split.
  - cbv zeta in Hrun. destruct (_ <? 0).
    { inversion Hrun; subst o s'. repeat split. }
    destruct (take _ _ !! _) as [last|].
    + apply IH in Hrun; [exact Hrun|apply always_within_ttl_tick, Hs].
    + inversion Hrun; subst o s'. repeat split.
Qed.

(** Between two refreshes a resolution makes no query and leaves the cache
    as it is; of the heap it changes at most the URL it returns. *)
Theorem findRedirect_between_refreshes (req : URL) (s : State) :
  always_within_ttl s ->
  cache (snd (findRedirect req s)) = cache s
  /\ queries (world (snd (findRedirect req s))) = queries (world s)
  /\ length (heap (snd (findRedirect req s))) = length (heap s)
  /\ match fst (findRedirect req s) with
     | Done (Ok (Some p)) =>
         forall l : nat, l <> p -> heap (snd (findRedirect req s)) !! l = heap s !! l
     | _ => heap (snd (findRedirect req s)) = heap s
     end.
Proof.
  intros Hs. unfold findRedirect.
  destruct (findRedirect_loop _ req _ [] s) as [o s'] eqn:Hrun. simpl.
  exact (findRedirect_loop_frame _ _ _ _ _ _ _ Hs Hrun).
Qed.

Lemma findRedirect_loop_query_only (fuel : nat) (req req' : URL)
    (segments discard : list string) (s : State) :
  URL_Query req = URL_Query req' ->
  findRedirect_loop fuel req segments discard s
  = findRedirect_loop fuel req' segments discard s.
Proof.
  intros Hq. revert segments discard s.
  induction fuel as [|fuel IH]; intros [|x segments] discard s; try reflexivity.
  rewrite !findRedirect_loop_turn. unfold bind at 1 3.
  destruct (Get _ s) as [[[[v|]|err]|msg|msg] s1];
    [unfold bind; rewrite Hq; reflexivity| |reflexivity..].
  cbv zeta. destruct (_ <? 0); [reflexivity|].
  destruct (take _ _ !! _) as [last|]; [apply IH|reflexivity].
Qed.

(** The slash that starts the path makes no difference: a request
    resolves alike with it and without it. *)
Theorem findRedirect_leading_slash (req : URL) (s : State) :
  String.prefix "/" (Path req) = false ->
  findRedirect (set_Path (String "/" (Path req)) req) s = findRedirect req s.
Proof.
  intros Hp. unfold findRedirect. simpl.
  rewrite TrimPrefix_slash, (TrimPrefix_no_slash _ Hp).
  now apply findRedirect_loop_query_only.
Qed.

End Resolution.

(** ** The handler *)

Section Handler.

Context `{GoLib} `{HttpLib}.

(** The handler leaves the state as [findRedirect] left it. *)
Lemma redirect_unfold (w : ResponseWriter) (req : URL) (s : State) :
  redirect w req s =
  match findRedirect req s with
  | (Done (Err err), s1) =>
      (Done (Write "shortcut not found"
               (WriteHeader 404 (writeError w 500 ("failed to find redirect: " ++ err)))),
       s1)
  | (Done (Ok None), s1) => (Done (Write "shortcut not found" (WriteHeader 404 w)), s1)
  | (Done (Ok (Some p)), s1) =>
      match heap s1 !! p with
      | Some u => (Done (http_Redirect w req (URL_String u) 301), s1)
      | None => (Panicked "invalid memory address or nil pointer dereference", s1)
      end
  | (Panicked msg, s1) => (Panicked msg, s1)
  | (Exited msg, s1) => (Exited msg, s1)
  end.
Proof.
  unfold redirect, bind at 1.
  destruct (findRedirect req s) as [[[[p|]|err]|msg|msg] s1]; try reflexivity.
  run. destruct (heap s1 !! p); reflexivity.
Qed.

(** When the resolution returns an error, the handler sends the status 500
    and goes on into the branch of the absent shortcut: the status 404 it
    writes there is ignored, and the body holds the error message followed
    by the text of the 404. *)
Theorem redirect_on_error (w : ResponseWriter) (req : URL) (s : State) (e : error) :
  rw_status w = None ->
  fst (findRedirect req s) = Done (Err e) ->
  redirect w req s
  = (Done (mkResponse (Some 500) (rw_header w)
             ((rw_body w ++ "failed to find redirect: " ++ e) ++ "shortcut not found")),
     snd (findRedirect req s)).
Proof.
  intros Hw Hf. rewrite redirect_unfold.
  destruct (findRedirect req s) as [o s1]. simpl in Hf. subst o. simpl.
  unfold writeError, Write, WriteHeader. rewrite Hw. reflexivity.
Qed.

(** Every response the handler completes is either the 500 above or the
    redirect with the status 301 to the URL behind the pointer that
    [findRedirect] returned: the answer 404 alone is never sent, because
    [findRedirect] never returns [(nil, nil)]. *)
Theorem redirect_responses (w w' : ResponseWriter) (req : URL) (s : State) :
  rw_status w = None ->
  fst (redirect w req s) = Done w' ->
  (exists e,
      fst (findRedirect req s) = Done (Err e)
      /\ w' = mkResponse (Some 500) (rw_header w)
                ((rw_body w ++ "failed to find redirect: " ++ e) ++ "shortcut not found"))
  \/ (exists p u,
         fst (findRedirect req s) = Done (Ok (Some p))
         /\ heap (snd (findRedirect req s)) !! p = Some u
         /\ w' = http_Redirect w req (URL_String u) 301).
Proof.
  intros Hw Hr. rewrite redirect_unfold in Hr.
  pose proof (findRedirect_loop_not_absent
                (length (segments_of req)) req (segments_of req) [] s
                (Split_nonempty _ _)) as Habsent.
  change (fst (findRedirect req s) <> Done (Ok None)) in Habsent.
  destruct (findRedirect req s) as [[[[p|]|err]|msg|msg] s1]; simpl in *;
    try discriminate.
  - right. destruct (heap s1 !! p) as [u|] eqn:Hu; [|discriminate].
    inversion Hr. exists p, u. repeat split. exact Hu.
  - exfalso. now apply Habsent.
  - left. exists err. split; [reflexivity|]. inversion Hr.
    unfold writeError, Write, WriteHeader. rewrite Hw. reflexivity.
Qed.

End Handler.

(** ** A query that fails past the ttl *)

Section FailedQuery.

Context `{GoLib}.


End FailedQuery.

(** ** The theorems above on concrete states *)

Section Instances.

#[local] Existing Instance Demo.lib.
#[local] Existing Instance demo_http.

Lemma within_ttl_plain_witness :
  ~ within_ttl (Demo.serving Demo.sheet)
  /\ within_ttl (Demo.refreshed Demo.sheet).
Proof.
  destruct (within_ttl_plain (Demo.serving Demo.sheet)) as [Hplain _].
  destruct (within_ttl_plain (Demo.refreshed Demo.sheet)) as [Hplain' _].
  split.
  - intros Hin. apply Hplain in Hin; vm_compute in Hin |- *; [|split]; congruence.
  - apply Hplain'; vm_compute; [split|]; congruence.
Defined.

Lemma Refresh_replaces_mapping_witness :
  fst (Refresh (Demo.serving Demo.sheet)) = Done None
  /\ c_lastUpdate (cache (snd (Refresh (Demo.serving Demo.sheet)))) = Demo.today
  /\ queries (world (snd (Refresh (Demo.serving Demo.sheet)))) = 1%nat.
Proof.
  assert (~ within_ttl (Demo.serving Demo.sheet)) as Hout by (vm_compute; congruence).
  assert (fst (Query (c_sheet (cache (Demo.serving Demo.sheet)))
                 (tick (Demo.serving Demo.sheet))) = Done (Ok Demo.sheet))
    as Hq by reflexivity.
  destruct (Refresh_replaces_mapping _ _ Hout Hq)
    as (Hr & _ & Ht & _ & _ & _ & _ & Hn).
  repeat split; assumption.
Defined.

Lemma Get_after_expiry_witness :
  (exists l, fst (Get "a" (Demo.serving Demo.sheet)) = Done (Ok (Some l))
             /\ heap (snd (Get "a" (Demo.serving Demo.sheet))) !! l
                = Some (mkURL "https" "example.com" "/x" "" ""))
  /\ fst (Get "Go" (Demo.serving Demo.sheet)) = Done (Ok None).
Proof.
  assert (~ within_ttl (Demo.serving Demo.sheet)) as Hout by (vm_compute; congruence).
  assert (fst (Query (c_sheet (cache (Demo.serving Demo.sheet)))
                 (tick (Demo.serving Demo.sheet))) = Done (Ok Demo.sheet))
    as Hq by reflexivity.
  destruct (Get_after_expiry _ _ Hout Hq) as [Hhit Hmiss]. split.
  - apply (Hhit 0%nat [CString "a"; CString "https://example.com/x"]);
      [reflexivity|reflexivity|].
    intros j row' u' Hij Hj.
    destruct j as [|[|[|j]]]; try lia; simpl in Hj; inversion Hj; subst row';
      vm_compute; discriminate.
  - apply Hmiss. intros i row u Hi.
    destruct i as [|[|[|i]]]; simpl in Hi; inversion Hi; subst row;
      vm_compute; discriminate.
Defined.

Lemma Get_between_refreshes_witness :
  fst (Get "nope" (Demo.refreshed Demo.sheet)) = Done (Ok None)
  /\ queries (world (snd (Get "nope" (Demo.refreshed Demo.sheet)))) = 1%nat.
Proof.
  assert (within_ttl (Demo.refreshed Demo.sheet)) as Hin by (vm_compute; congruence).
  destruct (Get_between_refreshes "nope" _ Hin) as (_ & Hnone & _ & Hq & _).
  split; [apply Hnone; reflexivity|rewrite Hq; reflexivity].
Defined.

Lemma prepRedirect_effect_witness :
  exists u',
    heap (snd (prepRedirect 2%nat "tour" ∅ (Demo.refreshed Demo.sheet))) !! 2%nat = Some u'
    /\ Path u' = "/tour".
Proof.
  assert (heap (Demo.refreshed Demo.sheet) !! 2%nat
          = Some (mkURL "https" "go.dev" "/" "" "")) as Hu by reflexivity.
  destruct (prepRedirect_effect 2%nat "tour" ∅ _ _ Hu)
    as (_ & _ & _ & _ & _ & u' & Hu' & _ & _ & _ & _ & Hp).
  exists u'. split; [exact Hu'|exact Hp].
Defined.

Lemma well_formed_serving : well_formed (Demo.serving Demo.sheet).
Proof. intros q l Hq. simpl in Hq. simplify_map_eq. Defined.

Lemma findRedirect_outcomes_witness :
  well_formed (snd (findRedirect (Demo.request "/a/b/c" "") (Demo.serving Demo.sheet))).
Proof.
  exact (proj1 (findRedirect_outcomes (Demo.request "/a/b/c" "") _ well_formed_serving)).
Defined.

Lemma cache_keeps_pointers_allocated_witness :
  well_formed (snd (Refresh (Demo.serving Demo.sheet)))
  /\ well_formed (snd (Get "a" (Demo.serving Demo.sheet))).
Proof.
  destruct (cache_keeps_pointers_allocated "a" _ well_formed_serving) as (Hr & Hg & _).
  split; assumption.
Defined.

Lemma always_within_ttl_refreshed : always_within_ttl (Demo.refreshed Demo.sheet).
Proof. intros n. vm_compute. congruence. Defined.

Lemma findRedirect_longest_prefix_witness :
  fst (findRedirect (Demo.request "/a/b/c/d" "") (Demo.refreshed Demo.sheet))
  = Done (Ok (Some 1%nat))
  /\ heap (snd (findRedirect (Demo.request "/a/b/c/d" "") (Demo.refreshed Demo.sheet)))
     = <[1%nat := redirected (mkURL "https" "example.com" "/y" "k=v" "") "b/c"]>
         (heap (Demo.refreshed Demo.sheet)).
Proof.
  destruct (findRedirect_longest_prefix (Demo.request "/a/b/c/d" "")
              (Demo.refreshed Demo.sheet) 2 1
              (mkURL "https" "example.com" "/y" "k=v" ""))
    as (Hf & _ & Hh & _).
  - exact always_within_ttl_refreshed.
  - simpl. lia.
  - reflexivity.
  - intros j Hj. simpl in Hj.
    destruct j as [|[|[|[|[|j]]]]]; try lia; reflexivity.
  - reflexivity.
  - split; [exact Hf|exact Hh].
Defined.

Lemma findRedirect_exact_match_witness :
  fst (findRedirect (Demo.request "/a/b" "") (Demo.refreshed Demo.sheet))
  = Done (Ok (Some 1%nat)).
Proof.
  rewrite (findRedirect_exact_match (Demo.request "/a/b" "") _ 1
             (mkURL "https" "example.com" "/y" "k=v" "")
             always_within_ttl_refreshed eq_refl eq_refl).
  reflexivity.
Defined.

Lemma findRedirect_cache_error_witness :
  findRedirect (Demo.request "/a" "") Demo.unconfigured
  = (Done (Err "GOOGLE_SHEET_ID not set"), asked (tick Demo.unconfigured)).
Proof.
  apply findRedirect_cache_error. vm_compute. reflexivity.
Defined.

Lemma findRedirect_between_refreshes_witness :
  cache (snd (findRedirect (Demo.request "/a/b/c" "") (Demo.refreshed Demo.sheet)))
  = cache (Demo.refreshed Demo.sheet).
Proof.
  exact (proj1 (findRedirect_between_refreshes (Demo.request "/a/b/c" "") _
                  always_within_ttl_refreshed)).
Defined.

Lemma findRedirect_leading_slash_witness :
  findRedirect (Demo.request "/a/b" "") (Demo.refreshed Demo.sheet)
  = findRedirect (Demo.request "a/b" "") (Demo.refreshed Demo.sheet).
Proof.
  exact (findRedirect_leading_slash (Demo.request "a/b" "") _ eq_refl).
Defined.

Lemma redirect_on_error_witness :
  fst (redirect fresh_response (Demo.request "/a" "") Demo.unconfigured)
  = Done (mkResponse (Some 500) []
            "failed to find redirect: GOOGLE_SHEET_ID not setshortcut not found").
Proof.
  rewrite (redirect_on_error fresh_response (Demo.request "/a" "") Demo.unconfigured
             "GOOGLE_SHEET_ID not set" eq_refl eq_refl).
  reflexivity.
Defined.

Lemma redirect_responses_witness :
  exists p u,
    fst (findRedirect (Demo.request "/a/b" "") (Demo.serving Demo.sheet))
    = Done (Ok (Some p))
    /\ heap (snd (findRedirect (Demo.request "/a/b" "") (Demo.serving Demo.sheet))) !! p
       = Some u
    /\ mkResponse (Some 301) [("Location", "https://example.com/y?k=v")] ""
       = http_Redirect fresh_response (Demo.request "/a/b" "") (URL_String u) 301.
Proof.
  destruct (redirect_responses fresh_response
              (mkResponse (Some 301) [("Location", "https://example.com/y?k=v")] "")
              (Demo.request "/a/b" "") (Demo.serving Demo.sheet) eq_refl)
    as [(e & He & _)|(p & u & Hp & Hu & Hw)].
  - vm_compute. reflexivity.
  - vm_compute in He. discriminate.
  - exists p, u. repeat split; assumption.
Defined.

(** The state [Demo.stale] is one the server reaches: its first refresh
    goes through and caches [a]. *)
Lemma stale_reached :
  fst (Refresh (Demo.startup "sheet" "Sheet1" (Demo.flaky Demo.sheet "timeout")))
  = Done None
  /\ c_v (cache (Demo.stale Demo.sheet "timeout")) !! "a" = Some 0%nat
  /\ deref (Demo.stale Demo.sheet "timeout") (Some 0%nat)
     = Some (mkURL "https" "example.com" "/x" "" "").
Proof. repeat split; vm_compute; reflexivity. Qed.





End Instances.
